(** * The NSF ingestion pipeline of lotus_notes_converter/parser.py

    A shallow embedding of the parser module: the LMBCS text decoder, the
    file and database header readers, the item scan of a note, the note
    scan of the stream, the note classification and the construction of
    the application model.  Python values are embedded as follows:

    - [bytes] objects are lists of [Byte.byte];
    - [int] is [Z] (Python integers do not wrap);
    - [str] is the list of its Unicode code points;
    - a [dict] is an association list in insertion order, as CPython
      keeps it;
    - an exception is a value of [exn] carried by [result];
    - [datetime.now()] reads a clock that is threaded through the code
      as an explicit state. *)

From Stdlib Require Import ZArith String Ascii List Bool Lia.
From Stdlib Require Import Strings.Byte.
From Stdlib Require Import DecimalString DecimalN.
Import ListNotations.

Local Open Scope Z_scope.

(** ** Python builtins used by the parser *)

Module Py.

Definition bytes := list byte.

(** A Python [str]: the sequence of its code points. *)
Definition str := list Z.

Definition ord (b : byte) : Z := Z.of_N (Byte.to_N b).

Definition len {A} (l : list A) : Z := Z.of_nat (length l).

(** [data[a:b]] for non-negative bounds: Python clips the slice to the
    object, it never raises. *)
Definition slice {A} (data : list A) (a b : Z) : list A :=
  firstn (Z.to_nat (b - a)) (skipn (Z.to_nat a) data).

(** A string literal of the source, as a [str]. *)
Definition lit (s : string) : str :=
  map (fun c => Z.of_N (N_of_ascii c)) (list_ascii_of_string s).

(** [str(n)] and [f"{n}"] for an integer [n >= 0]. *)
Definition str_of_int (n : Z) : str :=
  lit (NilEmpty.string_of_uint (N.to_uint (Z.to_N n))).

Inductive exn : Type :=
| NSFParseError (msg : string)
| struct_error
| attribute_error.

Inductive result (A : Type) : Type :=
| Ok (a : A)
| Raise (e : exn).
Arguments Ok {A} a.
Arguments Raise {A} e.

(** [struct.unpack('<H', b)[0]]: raises unless [b] has exactly 2 bytes. *)
Definition unpack_H (b : bytes) : result Z :=
  match b with
  | [b0; b1] => Ok (ord b0 + 256 * ord b1)
  | _ => Raise struct_error
  end.

(** [struct.unpack('<L', b)[0]]: raises unless [b] has exactly 4 bytes. *)
Definition unpack_L (b : bytes) : result Z :=
  match b with
  | [b0; b1; b2; b3] =>
      Ok (ord b0 + 256 * ord b1 + 65536 * ord b2 + 16777216 * ord b3)
  | _ => Raise struct_error
  end.

Definition byte_of_Z (z : Z) : byte :=
  match Byte.of_N (Z.to_N z) with
  | Some b => b
  | None => x00
  end.

(** [struct.pack('<H', v)] for [0 <= v < 65536], as the sample generator
    of the repository writes the header fields. *)
Definition pack_H (v : Z) : bytes :=
  [byte_of_Z (v mod 256); byte_of_Z (v / 256)].

(** [struct.pack('<L', v)] for [0 <= v < 2^32]. *)
Definition pack_L (v : Z) : bytes :=
  [byte_of_Z (v mod 256); byte_of_Z (v / 256 mod 256);
   byte_of_Z (v / 65536 mod 256); byte_of_Z (v / 16777216)].

(** [b.split(b'\x00')[0]]: the bytes before the first NUL. *)
Fixpoint split_nul_head (b : bytes) : bytes :=
  match b with
  | [] => []
  | c :: r => if ord c =? 0 then [] else c :: split_nul_head r
  end.

(** *** [bytes.decode('utf-8', errors=...)]

    CPython's decoder: a malformed sequence is reported to the error
    handler as the range of bytes that cannot start a well-formed
    character, and decoding resumes right after that range.  The handler
    [ignore] produces nothing for the range, [replace] produces U+FFFD. *)

Inductive errors : Type := ignore | replace.

Definition on_error (h : errors) : str :=
  match h with
  | ignore => []
  | replace => [0xFFFD]
  end.

Definition is_continuation (c : Z) : bool := (0x80 <=? c) && (c <? 0xC0).

Fixpoint decode_utf8 (h : errors) (s : bytes) : str :=
  match s with
  | [] => []
  | b0 :: s1 =>
    let ch := ord b0 in
    if ch <? 0x80 then ch :: decode_utf8 h s1
    else if ch <? 0xC2 then
      (* a continuation byte, or C0/C1: invalid start byte *)
      on_error h ++ decode_utf8 h s1
    else if ch <? 0xE0 then
      match s1 with
      | [] => on_error h (* unexpected end of data *)
      | b1 :: s2 =>
        let ch2 := ord b1 in
        if is_continuation ch2
        then (ch * 64 + ch2 - (0xC0 * 64 + 0x80)) :: decode_utf8 h s2
        else on_error h ++ decode_utf8 h s1
      end
    else if ch <? 0xF0 then
      match s1 with
      | [] => on_error h
      | b1 :: s2 =>
        let ch2 := ord b1 in
        if negb (is_continuation ch2)
           || (if ch2 <? 0xA0 then ch =? 0xE0 else ch =? 0xED)
        then on_error h ++ decode_utf8 h s1
        else
          match s2 with
          | [] => on_error h
          | b2 :: s3 =>
            let ch3 := ord b2 in
            if is_continuation ch3
            then (ch * 4096 + ch2 * 64 + ch3
                  - (0xE0 * 4096 + 0x80 * 64 + 0x80)) :: decode_utf8 h s3
            else on_error h ++ decode_utf8 h s2
          end
      end
    else if ch <? 0xF5 then
      match s1 with
      | [] => on_error h
      | b1 :: s2 =>
        let ch2 := ord b1 in
        if negb (is_continuation ch2)
           || (if ch2 <? 0x90 then ch =? 0xF0 else ch =? 0xF4)
        then on_error h ++ decode_utf8 h s1
        else
          match s2 with
          | [] => on_error h
          | b2 :: s3 =>
            let ch3 := ord b2 in
            if negb (is_continuation ch3)
            then on_error h ++ decode_utf8 h s2
            else
              match s3 with
              | [] => on_error h
              | b3 :: s4 =>
                let ch4 := ord b3 in
                if is_continuation ch4
                then (ch * 262144 + ch2 * 4096 + ch3 * 64 + ch4
                      - (0xF0 * 262144 + 0x80 * 4096 + 0x80 * 64 + 0x80))
                     :: decode_utf8 h s4
                else on_error h ++ decode_utf8 h s3
              end
          end
      end
    else on_error h ++ decode_utf8 h s1
  end.

(** *** Text operations: [==], [str.lower], [in] *)

Fixpoint str_eqb (a b : str) : bool :=
  match a, b with
  | [], [] => true
  | x :: a', y :: b' => (x =? y) && str_eqb a' b'
  | _, _ => false
  end.

Fixpoint bytes_eqb (a b : bytes) : bool :=
  match a, b with
  | [], [] => true
  | x :: a', y :: b' => (ord x =? ord y) && bytes_eqb a' b'
  | _, _ => false
  end.

(** [c.lower()] on ASCII; the parser lowers only the text of a [repr],
    which is ASCII. *)
Definition lower_char (c : Z) : Z :=
  if (65 <=? c) && (c <=? 90) then c + 32 else c.

Definition lower (s : str) : str := map lower_char s.

Fixpoint startswith (s p : str) : bool :=
  match p, s with
  | [], _ => true
  | _ :: _, [] => false
  | x :: p', y :: s' => (x =? y) && startswith s' p'
  end.

(** [p in s] for two [str] values: [p] occurs as a contiguous run. *)
Fixpoint contains (s p : str) : bool :=
  startswith s p ||
  match s with
  | [] => false
  | _ :: s' => contains s' p
  end.

(** *** [dict] with [str] keys, in insertion order *)

Definition dict (V : Type) := list (str * V).

(** [d[k] = v]: an existing key keeps its place and takes the new value,
    a new key goes last. *)
Fixpoint dict_set {V} (d : dict V) (k : str) (v : V) : dict V :=
  match d with
  | [] => [(k, v)]
  | (k', v') :: r =>
      if str_eqb k' k then (k', v) :: r else (k', v') :: dict_set r k v
  end.

Fixpoint dict_get {V} (d : dict V) (k : str) : option V :=
  match d with
  | [] => None
  | (k', v') :: r => if str_eqb k' k then Some v' else dict_get r k
  end.

(** *** [repr] of the item mapping, as [str(note.items)] prints it *)

Definition hexdigit (n : Z) : Z := if n <? 10 then 48 + n else 87 + n.

(** One byte inside a [bytes] literal delimited by [quote]. *)
Definition repr_byte (quote c : Z) : str :=
  if (c =? quote) || (c =? 92) then [92; c]
  else if c =? 9 then [92; 116]
  else if c =? 10 then [92; 110]
  else if c =? 13 then [92; 114]
  else if (c <? 32) || (127 <=? c)
       then [92; 120; hexdigit (c / 16); hexdigit (c mod 16)]
  else [c].

(** [repr(b)]: double quotes only when [b] has a single quote and no
    double quote. *)
Definition repr_bytes (b : bytes) : str :=
  let squotes := existsb (fun c => ord c =? 39) b in
  let dquotes := existsb (fun c => ord c =? 34) b in
  let quote := if squotes && negb dquotes then 34 else 39 in
  [98; quote] ++ flat_map (fun c => repr_byte quote (ord c)) b ++ [quote].

(** [repr(k)] for a key made of letters, digits and underscores, which
    is all the parser ever stores: the key between single quotes. *)
Definition repr_key (k : str) : str := [39] ++ k ++ [39].

Fixpoint repr_entries (d : dict bytes) : str :=
  match d with
  | [] => []
  | [(k, v)] => repr_key k ++ lit ": " ++ repr_bytes v
  | (k, v) :: r => repr_key k ++ lit ": " ++ repr_bytes v ++ lit ", " ++ repr_entries r
  end.

Definition repr_dict (d : dict bytes) : str :=
  lit "{" ++ repr_entries d ++ lit "}".

(** *** [stream.read(n)] on a binary file: up to [n] bytes, fewer only at
    the end of the file; the result and the rest of the stream. *)
Definition read (stream : bytes) (n : Z) : bytes * bytes :=
  (firstn (Z.to_nat n) stream, skipn (Z.to_nat n) stream).

(** *** [datetime.now()]

    The clock is outside the program: [clock k] is what the [k]-th call
    of [datetime.now()] of a run returns.  A computation that may read
    the clock takes the clock and the number of readings done so far. *)

Definition datetime := Z.
Definition clock := nat -> datetime.
Definition Timed (A : Type) := clock -> nat -> A * nat.

Definition ret {A} (a : A) : Timed A := fun _ k => (a, k).
Definition bind {A B} (m : Timed A) (f : A -> Timed B) : Timed B :=
  fun clk k => let (a, k') := m clk k in f a clk k'.
Definition now : Timed datetime := fun clk k => (clk k, S k).

End Py.
Import Py.

Notation "x <- m ;; k" := (Py.bind m (fun x => k))
  (at level 61, m at next level, right associativity).

Notation "'try!' x := m 'in' k" :=
  (match m with Py.Ok x => k | Py.Raise e => Py.Raise e end)
  (at level 61, x name, m at next level, right associativity).

(** ** models.py: the classes the parser instantiates

    Only the attributes the parser sets are recorded; every other
    attribute of the pydantic models keeps its declared default ([None],
    [False] or an empty list) in every object the parser builds. *)

Inductive FieldType : Type :=
| TEXT | NUMBER | DATE | TIME | DATETIME | BOOLEAN
| RICH_TEXT | NAMES | KEYWORDS | DOCLINK | ATTACHMENT | COMPUTED.

Module FieldModel.
Record t : Type := Build
  { id : str; name : str; type : FieldType; label : str; required : bool }.
End FieldModel.

Module ColumnModel.
Record t : Type := Build
  { id : str; name : str; title : str; data_type : FieldType }.
End ColumnModel.

Module FormModel.
Record t : Type := Build
  { id : str; name : str; description : option str;
    fields : list FieldModel.t; created_date : option datetime }.
End FormModel.

Module ViewModel.
Record t : Type := Build
  { id : str; name : str; description : option str;
    columns : list ColumnModel.t; created_date : option datetime;
    default_view : bool }.
End ViewModel.

(** A value of [DocumentModel.fields]: a [str], or the [isoformat()]
    text of a clock reading. *)
Inductive field_value : Type :=
| Text (s : str)
| Isoformat (d : datetime).

Module DocumentModel.
Record t : Type := Build
  { id : str; form_name : str; fields : dict field_value;
    created_date : option datetime }.
End DocumentModel.

Module ApplicationModel.
Record t : Type := Build
  { id : str; name : str; description : option str;
    created_date : option datetime; modified_date : option datetime;
    forms : list FormModel.t; views : list ViewModel.t;
    documents : list DocumentModel.t }.
End ApplicationModel.

(** ** parser.py *)

Module LMBCSDecoder.

(** [decode]: the loop over [i] is the recursion over the bytes from [i]
    on, so [remaining = data[i:]] is the argument itself.  No operation
    of the body raises, and [decode(..., errors='ignore')] never raises
    [UnicodeDecodeError]: neither handler is reachable. *)
Fixpoint decode (data : bytes) : str :=
  match data with
  | [] => []
  | b :: rest =>
    let byte := ord b in
    if byte =? 0 then []
    else if byte <? 0x80 then byte :: decode rest
    else decode_utf8 ignore data
  end.

End LMBCSDecoder.

Module NSFFileHeader.

Record t : Type := Build
  { signature : bytes; version : Z; info_buffer_size : Z; class_id : Z }.

Definition __init__ (data : bytes) : result t :=
  if len data <? 22 then Raise (NSFParseError "Invalid NSF header size")
  else
    let signature := slice data 0 2 in
    if negb (bytes_eqb signature [x1a; x00])
    then Raise (NSFParseError "Invalid NSF signature")
    else
      try! version := unpack_H (slice data 2 4) in
      try! info_buffer_size := unpack_H (slice data 4 6) in
      try! class_id := unpack_H (slice data 6 8) in
      Ok (Build signature version info_buffer_size class_id).

End NSFFileHeader.

Module NSFDatabaseHeader.

Record t : Type := Build { info_buffer : bytes; title : str }.

(** The new value of [self.title]; it stays [""] when the guard fails.
    Slicing, [split] and [decode(..., errors='ignore')] do not raise. *)
Definition _parse_info_buffer (info_buffer : bytes) : str :=
  if 128 <? len info_buffer then
    let title_start := 64 in
    let title_end := title_start + 64 in
    let title_bytes := slice info_buffer title_start title_end in
    decode_utf8 ignore (split_nul_head title_bytes)
  else [].

Definition __init__ (data : bytes) : t :=
  Build data (_parse_info_buffer data).

End NSFDatabaseHeader.

Module NSFNote.

Record t : Type := Build
  { note_id : Z; note_class : Z; data : bytes; items : dict bytes }.

(** The key [f"item_{item_type}"]. *)
Definition item_key (item_type : Z) : str := lit "item_" ++ str_of_int item_type.

(** The [while] loop of [_parse_items] from a given [offset], with the
    mapping built so far.  An exception inside the [try] reaches the
    handler, which only logs: the mapping is left as it is.  Each turn
    moves [offset] forward by at least 5, so [fuel] beyond the length of
    the payload is never used up. *)
Fixpoint _parse_items_loop (fuel : nat) (data : bytes) (offset : Z)
    (items : dict bytes) : dict bytes :=
  match fuel with
  | O => items
  | S fuel' =>
    if offset <? len data - 4 then
      if len data <? offset + 8 then items
      else
        match unpack_H (slice data offset (offset + 2)),
              unpack_H (slice data (offset + 2) (offset + 4)) with
        | Ok item_type, Ok item_length =>
          if (item_length =? 0) || (len data <? offset + item_length)
          then items
          else
            let item_data := slice data (offset + 4) (offset + 4 + item_length) in
            _parse_items_loop fuel' data (offset + 4 + item_length)
              (dict_set items (item_key item_type) item_data)
        | _, _ => items
        end
    else items
  end.

Definition _parse_items (data : bytes) : dict bytes :=
  _parse_items_loop (S (length data)) data 0 [].

Definition __init__ (note_id note_class : Z) (data : bytes) : t :=
  Build note_id note_class data (_parse_items data).

Definition get_text_item (self : t) (item_name : str) : option str :=
  match dict_get (items self) item_name with
  | Some v => Some (LMBCSDecoder.decode v)
  | None => None
  end.

End NSFNote.

Module NSFParser.

Record t : Type := Build
  { file_header : option NSFFileHeader.t;
    db_header : option NSFDatabaseHeader.t;
    notes : list NSFNote.t }.

(** [NSFParser()] *)
Definition __init__ : t := Build None None [].

(** The [while True] loop of [_parse_notes]: [stream] is what is left to
    read, [notes] is [self.notes].  An exception inside the [try] is
    logged and the notes appended so far stay.  Each turn that does not
    leave the loop reads at least 17 bytes. *)
Fixpoint _parse_notes_loop (fuel : nat) (stream : bytes)
    (notes : list NSFNote.t) (note_id : Z) : list NSFNote.t :=
  match fuel with
  | O => notes
  | S fuel' =>
    let (note_header, stream) := read stream 16 in
    if len note_header <? 16 then notes
    else
      match unpack_H (slice note_header 0 2),
            unpack_L (slice note_header 4 8) with
      | Ok note_class, Ok note_length =>
        if (note_length =? 0) || (1024 * 1024 <? note_length) then notes
        else
          let (note_data, stream) := read stream note_length in
          if len note_data <? note_length then notes
          else
            let note := NSFNote.__init__ note_id note_class note_data in
            let notes := notes ++ [note] in
            let note_id := note_id + 1 in
            if 100 <? len notes then notes
            else _parse_notes_loop fuel' stream notes note_id
      | _, _ => notes
      end
  end.

(** [_parse_notes(stream)]: the new value of [self.notes]. *)
Definition _parse_notes (self : t) (stream : bytes) : list NSFNote.t :=
  _parse_notes_loop (S (length stream)) stream (notes self) 1.

Definition _is_form_note (note : NSFNote.t) : bool :=
  (NSFNote.note_class note =? 1024)
  && contains (lower (repr_dict (NSFNote.items note))) (lit "form").

Definition _is_view_note (note : NSFNote.t) : bool :=
  (NSFNote.note_class note =? 1024)
  && contains (lower (repr_dict (NSFNote.items note))) (lit "view").

Definition _is_document_note (note : NSFNote.t) : bool :=
  NSFNote.note_class note =? 512.

(** [a or b] where [a] is an optional [str]: [None] and [""] are false. *)
Definition or_else (a : option str) (b : str) : str :=
  match a with
  | Some (c :: s) => c :: s
  | _ => b
  end.

Definition _extract_form (note : NSFNote.t) : Timed (option FormModel.t) :=
  let form_name :=
    or_else (NSFNote.get_text_item note (lit "form_name"))
            (lit "Form_" ++ str_of_int (NSFNote.note_id note)) in
  created <- now ;;
  ret (Some (FormModel.Build
    (str_of_int (NSFNote.note_id note))
    form_name
    (Some (lit "Form extracted from note " ++ str_of_int (NSFNote.note_id note)))
    [ FieldModel.Build (lit "title") (lit "Title") TEXT (lit "Title") true;
      FieldModel.Build (lit "content") (lit "Content") RICH_TEXT (lit "Content") false;
      FieldModel.Build (lit "created_date") (lit "Created") DATETIME (lit "Created Date") false ]
    (Some created))).

Definition _extract_view (note : NSFNote.t) : Timed (option ViewModel.t) :=
  let view_name :=
    or_else (NSFNote.get_text_item note (lit "view_name"))
            (lit "View_" ++ str_of_int (NSFNote.note_id note)) in
  created <- now ;;
  ret (Some (ViewModel.Build
    (str_of_int (NSFNote.note_id note))
    view_name
    (Some (lit "View extracted from note " ++ str_of_int (NSFNote.note_id note)))
    [ ColumnModel.Build (lit "title") (lit "title") (lit "Title") TEXT;
      ColumnModel.Build (lit "created_date") (lit "created_date") (lit "Created") DATETIME;
      ColumnModel.Build (lit "author") (lit "author") (lit "Author") TEXT ]
    (Some created)
    false)).

Definition _extract_document (note : NSFNote.t) : Timed (option DocumentModel.t) :=
  created <- now ;;
  stamp <- now ;;
  ret (Some (DocumentModel.Build
    (str_of_int (NSFNote.note_id note))
    (lit "DefaultForm")
    [ (lit "title", Text (lit "Document " ++ str_of_int (NSFNote.note_id note)));
      (lit "content", Text (lit "Sample document content"));
      (lit "created_date", Isoformat stamp) ]
    (Some created))).

Definition _create_default_form : FormModel.t :=
  FormModel.Build
    (lit "default_form")
    (lit "DefaultForm")
    (Some (lit "Default form created during conversion"))
    [ FieldModel.Build (lit "title") (lit "Title") TEXT (lit "Title") true;
      FieldModel.Build (lit "content") (lit "Content") RICH_TEXT (lit "Content") false;
      FieldModel.Build (lit "author") (lit "Author") TEXT (lit "Author") false;
      FieldModel.Build (lit "created_date") (lit "Created") DATETIME (lit "Created Date") false ]
    None.

Definition _create_default_view : ViewModel.t :=
  ViewModel.Build
    (lit "default_view")
    (lit "AllDocuments")
    (Some (lit "Default view showing all documents"))
    [ ColumnModel.Build (lit "title") (lit "title") (lit "Title") TEXT;
      ColumnModel.Build (lit "author") (lit "author") (lit "Author") TEXT;
      ColumnModel.Build (lit "created_date") (lit "created_date") (lit "Created") DATETIME ]
    None
    true.

Definition add_form (app : ApplicationModel.t) (f : FormModel.t) :=
  let (i, n, d, c, m, fs, vs, ds) := app in
  ApplicationModel.Build i n d c m (fs ++ [f]) vs ds.

Definition add_view (app : ApplicationModel.t) (v : ViewModel.t) :=
  let (i, n, d, c, m, fs, vs, ds) := app in
  ApplicationModel.Build i n d c m fs (vs ++ [v]) ds.

Definition add_document (app : ApplicationModel.t) (x : DocumentModel.t) :=
  let (i, n, d, c, m, fs, vs, ds) := app in
  ApplicationModel.Build i n d c m fs vs (ds ++ [x]).

(** The body of [for note in self.notes]: the [append]s on [app]. *)
Definition visit_note (note : NSFNote.t) (app : ApplicationModel.t)
  : Timed ApplicationModel.t :=
  if _is_form_note note then
    form <- _extract_form note ;;
    ret (match form with Some f => add_form app f | None => app end)
  else if _is_view_note note then
    view <- _extract_view note ;;
    ret (match view with Some v => add_view app v | None => app end)
  else if _is_document_note note then
    document <- _extract_document note ;;
    ret (match document with Some d => add_document app d | None => app end)
  else ret app.

Fixpoint visit_notes (notes : list NSFNote.t) (app : ApplicationModel.t)
  : Timed ApplicationModel.t :=
  match notes with
  | [] => ret app
  | note :: rest => app <- visit_note note app ;; visit_notes rest app
  end.

(** [_build_application_model]: [self.db_header.title] raises
    [AttributeError] while [self.db_header] is still [None], before any
    clock reading. *)
Definition _build_application_model (self : t) (filename : str)
  : Timed (result ApplicationModel.t) :=
  match db_header self with
  | None => ret (Raise attribute_error)
  | Some dbh =>
    created <- now ;;
    modified <- now ;;
    let app := ApplicationModel.Build
      filename
      (or_else (Some (NSFDatabaseHeader.title dbh)) filename)
      (Some (lit "Converted from " ++ filename))
      (Some created) (Some modified) [] [] [] in
    app <- visit_notes (notes self) app ;;
    let app :=
      match ApplicationModel.forms app with
      | [] => add_form app _create_default_form
      | _ => app
      end in
    let app :=
      match ApplicationModel.views app with
      | [] => add_view app _create_default_view
      | _ => app
      end in
    ret (Ok app)
  end.

(** [_parse_nsf_stream]: the parser after the call, and the model
    returned or the exception raised.  An attribute assigned before an
    exception keeps its new value. *)
Definition _parse_nsf_stream (self : t) (stream : bytes) (filename : str)
  : Timed (t * result ApplicationModel.t) :=
  let (header_data, stream) := read stream 22 in
  match NSFFileHeader.__init__ header_data with
  | Raise e => ret (self, Raise e)
  | Ok fh =>
    let self := Build (Some fh) (db_header self) (notes self) in
    let (db_header_data, stream) := read stream (NSFFileHeader.info_buffer_size fh) in
    let self := Build (file_header self)
                      (Some (NSFDatabaseHeader.__init__ db_header_data))
                      (notes self) in
    let self := Build (file_header self) (db_header self)
                      (_parse_notes self stream) in
    r <- _build_application_model self filename ;;
    ret (self, r)
  end.

Definition exn_str (e : exn) : string :=
  match e with
  | NSFParseError msg => msg
  | struct_error => "unpack requires a buffer of 2 bytes"
  | attribute_error => "'NoneType' object has no attribute 'title'"
  end.

(** [parse_file] on an existing file with the given content and name:
    whatever is raised is wrapped into one [NSFParseError]. *)
Definition parse_file (self : t) (content : bytes) (filename : str)
  : Timed (t * result ApplicationModel.t) :=
  r <- _parse_nsf_stream self content filename ;;
  ret (match r with
       | (self, Ok app) => (self, Ok app)
       | (self, Raise e) =>
           (self, Raise (NSFParseError ("Failed to parse NSF file: " ++ exn_str e)))
       end).

End NSFParser.

(** ** Vocabulary of the specification *)

(** The role the [if]/[elif] chain of [_build_application_model] gives
    to a note. *)
Inductive NoteRole : Type := Form | View | Document | Unknown.

Definition classify (note : NSFNote.t) : NoteRole :=
  if NSFParser._is_form_note note then Form
  else if NSFParser._is_view_note note then View
  else if NSFParser._is_document_note note then Document
  else Unknown.

(** An ASCII byte other than NUL. *)
Definition ascii_text (b : byte) : Prop := 0 < ord b < 0x80.

(** A byte that is ASCII or that cannot start a UTF-8 sequence. *)
Definition ascii_or_stray (b : byte) : Prop :=
  ord b < 0x80 \/ (0x80 <= ord b < 0xC2) \/ 0xF5 <= ord b.

(** The little-endian 16-bit integer at [offset] of [data]. *)
Definition u16_at (data : bytes) (offset : Z) : Z :=
  ord (nth (Z.to_nat offset) data x00)
  + 256 * ord (nth (S (Z.to_nat offset)) data x00).

(** One scanned item: where its prefix starts, its type code, the length
    its prefix declares and the bytes stored for it. *)
Record scanned_item : Type := Scanned
  { at_offset : Z; item_type : Z; declared_length : Z; stored : bytes }.

(** The items the loop of [_parse_items] stores, in scan order: the same
    tests as [NSFNote._parse_items_loop], recording instead of storing. *)
Fixpoint scan_trace (fuel : nat) (data : bytes) (offset : Z) : list scanned_item :=
  match fuel with
  | O => []
  | S fuel' =>
    if offset <? len data - 4 then
      if len data <? offset + 8 then []
      else
        match unpack_H (slice data offset (offset + 2)),
              unpack_H (slice data (offset + 2) (offset + 4)) with
        | Ok ty, Ok item_length =>
          if (item_length =? 0) || (len data <? offset + item_length)
          then []
          else
            Scanned offset ty item_length
                    (slice data (offset + 4) (offset + 4 + item_length))
            :: scan_trace fuel' data (offset + 4 + item_length)
        | _, _ => []
        end
    else []
  end.

Definition scanned_items (data : bytes) : list scanned_item :=
  scan_trace (S (length data)) data 0.

(** The item loop started at [offset] on the mapping [items], with the
    fuel [_parse_items] gives it. *)
Definition items_from (data : bytes) (offset : Z) (items : dict bytes)
  : dict bytes :=
  NSFNote._parse_items_loop (S (length data)) data offset items.

Definition store (items : dict bytes) (it : scanned_item) : dict bytes :=
  dict_set items (NSFNote.item_key (item_type it)) (stored it).

(** The bytes of the last scanned item of type [ty], if there is one. *)
Definition last_of_type (ty : Z) (tr : list scanned_item) : option bytes :=
  fold_left (fun acc it => if item_type it =? ty then Some (stored it) else acc)
            tr None.

Definition occurrences (ty : Z) (tr : list scanned_item) : nat :=
  length (filter (fun it => item_type it =? ty) tr).

Definition entries_for (k : str) (d : dict bytes) : nat :=
  length (filter (fun kv => str_eqb (fst kv) k) d).

(** An item as it is laid out in a payload: type, length, then the
    payload bytes. *)
Definition encode_item (ty : Z) (payload : bytes) : bytes :=
  pack_H ty ++ pack_H (len payload) ++ payload.

Definition well_formed_item (it : Z * bytes) : Prop :=
  0 <= fst it < 65536 /\ 1 <= len (snd it) < 65536.

Definition encode_items (l : list (Z * bytes)) : bytes :=
  flat_map (fun it => encode_item (fst it) (snd it)) l.

Definition store_all (l : list (Z * bytes)) : dict bytes :=
  fold_left (fun d it => dict_set d (NSFNote.item_key (fst it)) (snd it)) l [].

(** A record frame as examples/create_sample_nsf.py writes it: class,
    2 bytes of padding, length, 8 bytes of padding, payload. *)
Definition frame (note_class : Z) (payload : bytes) : bytes :=
  pack_H note_class ++ [x00; x00] ++ pack_L (len payload)
  ++ repeat x00 8 ++ payload.

(** A file header as examples/create_sample_nsf.py writes it. *)
Definition file_header_bytes (version info_buffer_size class_id : Z)
    (padding : bytes) : bytes :=
  [x1a; x00] ++ pack_H version ++ pack_H info_buffer_size
  ++ pack_H class_id ++ padding.

(** The item scan as the specification words it: stop when fewer than 4
    bytes remain, when the length is 0, or when [offset + length] is
    beyond the payload. *)
Fixpoint spec_parse_items_loop (fuel : nat) (data : bytes) (offset : Z)
    (items : dict bytes) : dict bytes :=
  match fuel with
  | O => items
  | S fuel' =>
    if len data - offset <? 4 then items
    else
      match unpack_H (slice data offset (offset + 2)),
            unpack_H (slice data (offset + 2) (offset + 4)) with
      | Ok ty, Ok item_length =>
        if (item_length =? 0) || (len data <? offset + item_length)
        then items
        else
          spec_parse_items_loop fuel' data (offset + 4 + item_length)
            (dict_set items (NSFNote.item_key ty)
                      (slice data (offset + 4) (offset + 4 + item_length)))
      | _, _ => items
      end
  end.

Definition spec_parse_items (data : bytes) : dict bytes :=
  spec_parse_items_loop (S (length data)) data 0 [].

(** The text decoder as the specification words it: the fallback
    replaces what it cannot decode by a marker. *)
Fixpoint spec_decode (data : bytes) : str :=
  match data with
  | [] => []
  | b :: rest =>
    if ord b =? 0 then []
    else if ord b <? 0x80 then ord b :: spec_decode rest
    else decode_utf8 replace data
  end.

(** The title as the specification words it: the window from 64 to 128,
    clipped to the buffer, up to the first NUL. *)
Definition spec_title (info_buffer : bytes) : str :=
  decode_utf8 ignore (split_nul_head (slice info_buffer 64 128)).

(** The textual dump of the specification: every item's bytes through
    the text decoder, concatenated. *)
Definition spec_dump (items : dict bytes) : str :=
  flat_map (fun kv => LMBCSDecoder.decode (snd kv)) items.

Definition spec_is_form (note : NSFNote.t) : bool :=
  (NSFNote.note_class note =? 1024)
  && contains (lower (spec_dump (NSFNote.items note))) (lit "form").

(** The raw bytes of an item spell "form" in some letter case. *)
Definition mentions_form (v : bytes) : bool :=
  contains (lower (map ord v)) (lit "form").

(** The three canonical fields of the specification. *)
Definition canonical_fields : list FieldModel.t :=
  [ FieldModel.Build (lit "title") (lit "Title") TEXT (lit "Title") true;
    FieldModel.Build (lit "content") (lit "Content") RICH_TEXT (lit "Content") false;
    FieldModel.Build (lit "created_date") (lit "Created") DATETIME (lit "Created Date") false ].

(** A model with every clock reading taken out. *)
Definition form_without_dates (f : FormModel.t) : FormModel.t :=
  FormModel.Build (FormModel.id f) (FormModel.name f) (FormModel.description f)
                  (FormModel.fields f) None.

Definition view_without_dates (v : ViewModel.t) : ViewModel.t :=
  ViewModel.Build (ViewModel.id v) (ViewModel.name v) (ViewModel.description v)
                  (ViewModel.columns v) None (ViewModel.default_view v).

Definition value_without_dates (kv : str * field_value) : str * field_value :=
  match snd kv with
  | Text s => kv
  | Isoformat _ => (fst kv, Isoformat 0)
  end.

Definition document_without_dates (d : DocumentModel.t) : DocumentModel.t :=
  DocumentModel.Build (DocumentModel.id d) (DocumentModel.form_name d)
                      (map value_without_dates (DocumentModel.fields d)) None.

Definition without_dates (app : ApplicationModel.t) : ApplicationModel.t :=
  ApplicationModel.Build
    (ApplicationModel.id app) (ApplicationModel.name app)
    (ApplicationModel.description app) None None
    (map form_without_dates (ApplicationModel.forms app))
    (map view_without_dates (ApplicationModel.views app))
    (map document_without_dates (ApplicationModel.documents app)).

Definition result_without_dates (r : result ApplicationModel.t)
  : result ApplicationModel.t :=
  match r with
  | Ok app => Ok (without_dates app)
  | Raise e => Raise e
  end.

(** ** Further vocabulary *)

(** The little-endian 32-bit integer at [offset] of [data]. *)
Definition u32_at (data : bytes) (offset : Z) : Z :=
  ord (nth (Z.to_nat offset) data x00)
  + 256 * ord (nth (S (Z.to_nat offset)) data x00)
  + 65536 * ord (nth (S (S (Z.to_nat offset))) data x00)
  + 16777216 * ord (nth (S (S (S (Z.to_nat offset)))) data x00).

(** A frame the scan accepts: a 16-bit class and 1 to 1,048,576 payload
    bytes. *)
Definition well_formed_frame (f : Z * bytes) : Prop :=
  0 <= fst f < 65536 /\ 1 <= len (snd f) <= 1048576.

Definition encode_frames (fs : list (Z * bytes)) : bytes :=
  flat_map (fun f => frame (fst f) (snd f)) fs.

(** The notes of a list of frames, numbered from [note_id] on. *)
Fixpoint notes_of (note_id : Z) (fs : list (Z * bytes)) : list NSFNote.t :=
  match fs with
  | [] => []
  | f :: r => NSFNote.__init__ note_id (fst f) (snd f) :: notes_of (note_id + 1) r
  end.

(** What is left of a stream makes the scan stop: no room for a prefix,
    a length of 0 or above 1 MiB, or fewer payload bytes than declared. *)
Definition ends_scan (tail : bytes) : Prop :=
  len tail < 16 \/ u32_at tail 4 = 0 \/ 1048576 < u32_at tail 4
  \/ len tail < 16 + u32_at tail 4.

(** A note as the scan builds it. *)
Definition scanned_note (n : NSFNote.t) : Prop :=
  0 <= NSFNote.note_class n < 65536
  /\ 1 <= len (NSFNote.data n) <= 1048576
  /\ NSFNote.items n = NSFNote._parse_items (NSFNote.data n).

(** The identifiers [first], [first + 1], ... of [k] consecutive notes. *)
Definition ids_from (first : Z) (k : nat) : list Z :=
  map (fun i => first + Z.of_nat i) (seq 0 k).




(** The entry [_parse_items] makes for an item whose type occurs once. *)
Definition item_entry (it : Z * bytes) : str * bytes :=
  (NSFNote.item_key (fst it), snd it).


(** [classify note == r] *)
Definition has_role (r : NoteRole) (note : NSFNote.t) : bool :=
  match classify note, r with
  | Form, Form | View, View | Document, Document | Unknown, Unknown => true
  | _, _ => false
  end.

(** The form, view and document built for a note, without their clock
    readings, when the name is not taken from the note. *)
Definition form_of_note (note : NSFNote.t) : FormModel.t :=
  FormModel.Build
    (str_of_int (NSFNote.note_id note))
    (lit "Form_" ++ str_of_int (NSFNote.note_id note))
    (Some (lit "Form extracted from note " ++ str_of_int (NSFNote.note_id note)))
    canonical_fields
    None.

Definition view_of_note (note : NSFNote.t) : ViewModel.t :=
  ViewModel.Build
    (str_of_int (NSFNote.note_id note))
    (lit "View_" ++ str_of_int (NSFNote.note_id note))
    (Some (lit "View extracted from note " ++ str_of_int (NSFNote.note_id note)))
    [ ColumnModel.Build (lit "title") (lit "title") (lit "Title") TEXT;
      ColumnModel.Build (lit "created_date") (lit "created_date") (lit "Created") DATETIME;
      ColumnModel.Build (lit "author") (lit "author") (lit "Author") TEXT ]
    None
    false.

Definition document_of_note (note : NSFNote.t) : DocumentModel.t :=
  DocumentModel.Build
    (str_of_int (NSFNote.note_id note))
    (lit "DefaultForm")
    [ (lit "title", Text (lit "Document " ++ str_of_int (NSFNote.note_id note)));
      (lit "content", Text (lit "Sample document content"));
      (lit "created_date", Isoformat 0) ]
    None.

(** A collection of the model: one entry per note of the role, in the
    order of the notes, or the default entry when there is none. *)
Definition or_default {A} (l : list A) (d : A) : list A :=
  match l with
  | [] => [d]
  | _ => l
  end.


(** ** models.py: the lookups of ApplicationModel *)

(** [alias == name] for the optional alias of a form or view. *)
Definition alias_is (alias : option str) (name : str) : bool :=
  match alias with
  | Some a => str_eqb a name
  | None => false
  end.

(** [get_form_by_name]: the first form with that name or alias.  The
    alias of every form the parser builds is [None]. *)
Definition get_form_by_name (self : ApplicationModel.t) (name : str)
  : option FormModel.t :=
  find (fun form => str_eqb (FormModel.name form) name || alias_is None name)
       (ApplicationModel.forms self).

(** [get_view_by_name], with the same remark on the alias. *)
Definition get_view_by_name (self : ApplicationModel.t) (name : str)
  : option ViewModel.t :=
  find (fun view => str_eqb (ViewModel.name view) name || alias_is None name)
       (ApplicationModel.views self).

Definition get_documents_by_form (self : ApplicationModel.t) (form_name : str)
  : list DocumentModel.t :=
  filter (fun doc => str_eqb (DocumentModel.form_name doc) form_name)
         (ApplicationModel.documents self).

(** ** generator.py: the name helpers, on ASCII text

    [str.lower] and [str.capitalize] are embedded for ASCII text only,
    which is what the names the parser makes up consist of. *)

Definition upper_char (c : Z) : Z :=
  if (97 <=? c) && (c <=? 122) then c - 32 else c.

(** [word.capitalize()]: the first character upper-cased, the others
    lower-cased. *)
Definition capitalize (word : str) : str :=
  match word with
  | [] => []
  | c :: r => upper_char c :: lower r
  end.

(** [text.replace(old, new)] for two one-character strings. *)
Definition replace_char (old new : Z) (text : str) : str :=
  map (fun c => if c =? old then new else c) text.

(** [text.split(sep)] for a one-character separator: the runs between
    the separators, empty runs included; never an empty list. *)
Fixpoint split_char (sep : Z) (text : str) : list str :=
  match text with
  | [] => [[]]
  | c :: r =>
      if c =? sep then [] :: split_char sep r
      else
        match split_char sep r with
        | w :: ws => (c :: w) :: ws
        | [] => [[c]]
        end
  end.

Definition _camel_case (text : str) : str :=
  let words := split_char 95 (replace_char 45 95 text) in
  lower (hd [] words) ++ concat (map capitalize (tl words)).

Definition _pascal_case (text : str) : str :=
  let words := split_char 95 (replace_char 45 95 text) in
  concat (map capitalize words).

Definition _kebab_case (text : str) : str :=
  replace_char 32 45 (replace_char 95 45 (lower text)).

Definition is_ascii (text : str) : Prop := Forall (fun c => 0 <= c < 128) text.


(** A Unicode scalar value: a code point that is not a surrogate. *)
Definition scalar_value (c : Z) : Prop :=
  0 <= c <= 0x10FFFF /\ ~ (0xD800 <= c <= 0xDFFF).

(** * Properties *)

(** ** Bytes, slices and fixed-width integers *)

Lemma ord_range (b : byte) : 0 <= ord b < 256.
Proof.
  unfold ord. pose proof (Byte.to_N_bounded b). lia.
Qed.

Lemma ord_inj (a b : byte) : ord a = ord b -> a = b.
Proof.
  unfold ord. intros H. apply N2Z.inj in H.
  pose proof (Byte.of_to_N a) as Ha. rewrite H, Byte.of_to_N in Ha.
  congruence.
Qed.

Lemma ord_byte_of_Z (z : Z) : 0 <= z < 256 -> ord (byte_of_Z z) = z.
Proof.
  intros Hz. unfold byte_of_Z, ord.
  destruct (Byte.of_N (Z.to_N z)) as [b|] eqn:E.
  - apply Byte.to_of_N in E. rewrite E. lia.
  - apply Byte.of_N_None_iff in E. lia.
Qed.

Lemma len_nonneg {A} (l : list A) : 0 <= len l.
Proof. unfold len. lia. Qed.

Lemma len_app {A} (l1 l2 : list A) : len (l1 ++ l2) = len l1 + len l2.
Proof. unfold len. rewrite length_app. lia. Qed.

Lemma len_cons {A} (x : A) (l : list A) : len (x :: l) = 1 + len l.
Proof. unfold len. simpl length. lia. Qed.

Lemma bytes_eqb_eq (a b : bytes) : bytes_eqb a b = true <-> a = b.
Proof.
  revert b. induction a as [|x a IH]; intros [|y b]; simpl;
    try (split; [discriminate | congruence]); try tauto.
  rewrite andb_true_iff, Z.eqb_eq, IH. split.
  - intros [H1 H2]. f_equal; auto using ord_inj.
  - intros H. injection H as -> ->. auto.
Qed.

Lemma str_eqb_eq (a b : str) : str_eqb a b = true <-> a = b.
Proof.
  revert b. induction a as [|x a IH]; intros [|y b]; simpl;
    try (split; [discriminate | congruence]); try tauto.
  rewrite andb_true_iff, Z.eqb_eq, IH. split.
  - intros [-> ->]. reflexivity.
  - intros H. injection H as -> ->. auto.
Qed.

Lemma str_eqb_refl (a : str) : str_eqb a a = true.
Proof. apply str_eqb_eq. reflexivity. Qed.

Lemma str_eqb_neq (a b : str) : a <> b -> str_eqb a b = false.
Proof.
  intros H. destruct (str_eqb a b) eqn:E; [|reflexivity].
  apply str_eqb_eq in E. contradiction.
Qed.

Lemma firstn2_skipn (n : nat) (data : bytes) :
  (n + 2 <= length data)%nat ->
  firstn 2 (skipn n data) = [nth n data x00; nth (S n) data x00].
Proof.
  revert data. induction n as [|n IH]; intros data H.
  - destruct data as [|a [|b r]]; simpl in H; try lia. reflexivity.
  - destruct data as [|a r]; simpl in H; try lia.
    simpl skipn. rewrite IH by lia. reflexivity.
Qed.

Lemma slice_eq {A} (data : list A) (a b : Z) :
  slice data a b = firstn (Z.to_nat (b - a)) (skipn (Z.to_nat a) data).
Proof. reflexivity. Qed.

Lemma slice_length {A} (data : list A) (a b : Z) :
  0 <= a -> a <= b -> b <= len data -> len (slice data a b) = b - a.
Proof.
  unfold slice, len. intros Ha Hab Hb.
  rewrite length_firstn, length_skipn. lia.
Qed.

Lemma slice_from_0 {A} (data : list A) (b : Z) :
  slice data 0 b = firstn (Z.to_nat b) data.
Proof. unfold slice. rewrite Z.sub_0_r. reflexivity. Qed.

Lemma unpack_H_at (data : bytes) (offset : Z) :
  0 <= offset -> offset + 2 <= len data ->
  unpack_H (slice data offset (offset + 2)) = Ok (u16_at data offset).
Proof.
  intros H0 H1. unfold slice, len in *.
  replace (Z.to_nat (offset + 2 - offset)) with 2%nat by lia.
  rewrite firstn2_skipn by lia. reflexivity.
Qed.

Lemma u16_at_range (data : bytes) (offset : Z) : 0 <= u16_at data offset < 65536.
Proof.
  unfold u16_at.
  pose proof (ord_range (nth (Z.to_nat offset) data x00)).
  pose proof (ord_range (nth (S (Z.to_nat offset)) data x00)). lia.
Qed.

Lemma u16_pack (v : Z) :
  0 <= v < 65536 ->
  ord (byte_of_Z (v mod 256)) + 256 * ord (byte_of_Z (v / 256)) = v.
Proof.
  intros Hv. rewrite !ord_byte_of_Z.
  - pose proof (Z.div_mod v 256). lia.
  - split; [apply Z.div_pos; lia | apply Z.div_lt_upper_bound; lia].
  - apply Z.mod_pos_bound. lia.
Qed.

Lemma unpack_pack_H (v : Z) : 0 <= v < 65536 -> unpack_H (pack_H v) = Ok v.
Proof.
  intros Hv. unfold pack_H, unpack_H. f_equal. apply u16_pack, Hv.
Qed.

(** ** FileHeaderReader *)

Lemma file_header_accepts (data : bytes) :
  22 <= len data -> firstn 2 data = [x1a; x00] ->
  NSFFileHeader.__init__ data =
  Ok (NSFFileHeader.Build [x1a; x00] (u16_at data 2) (u16_at data 4) (u16_at data 6)).
Proof.
  intros Hlen Hsig. unfold NSFFileHeader.__init__.
  destruct (Z.ltb_spec (len data) 22) as [?|_]; [lia|].
  rewrite slice_from_0. change (Z.to_nat 2) with 2%nat. rewrite Hsig.
  change (negb (bytes_eqb [x1a; x00] [x1a; x00])) with false. cbv iota.
  change 4 with (2 + 2) at 1. rewrite unpack_H_at by lia.
  change 6 with (4 + 2) at 1. rewrite unpack_H_at by lia.
  change 8 with (6 + 2). rewrite unpack_H_at by lia.
  reflexivity.
Qed.

Lemma file_header_bytes_read (v i c : Z) (padding : bytes) :
  0 <= v < 65536 -> 0 <= i < 65536 -> 0 <= c < 65536 ->
  14 <= len padding ->
  NSFFileHeader.__init__ (file_header_bytes v i c padding) =
  Ok (NSFFileHeader.Build [x1a; x00] v i c).
Proof.
  intros Hv Hi Hc Hp.
  rewrite file_header_accepts.
  - unfold file_header_bytes, pack_H, u16_at.
    change (Z.to_nat 2) with 2%nat. change (Z.to_nat 4) with 4%nat.
    change (Z.to_nat 6) with 6%nat. cbn [app nth].
    rewrite !u16_pack by assumption. reflexivity.
  - unfold file_header_bytes, pack_H. rewrite !len_app. unfold len at 1 2 3 4.
    cbn [length]. lia.
  - reflexivity.
Qed.

(** C4. The file header reader raises exactly when fewer than 22 bytes
    are given or the first two bytes are not the signature 1A 00, and
    what it raises is the parse error of the module; otherwise it returns
    version, info buffer size and class id as the little-endian 16-bit
    integers at offsets 2, 4 and 6, so that a header written from three
    16-bit values is read back with exactly these values. *)
Theorem file_header_reader (data : bytes) :
  ((exists e, NSFFileHeader.__init__ data = Raise e) <->
   (len data < 22 \/ firstn 2 data <> [x1a; x00]))
  /\ (forall e, NSFFileHeader.__init__ data = Raise e ->
        exists msg, e = NSFParseError msg)
  /\ (22 <= len data -> firstn 2 data = [x1a; x00] ->
      NSFFileHeader.__init__ data =
      Ok (NSFFileHeader.Build [x1a; x00]
            (u16_at data 2) (u16_at data 4) (u16_at data 6)))
  /\ (forall v i c padding rest,
        0 <= v < 65536 -> 0 <= i < 65536 -> 0 <= c < 65536 ->
        len padding = 14 ->
        data = file_header_bytes v i c padding ++ rest ->
        NSFFileHeader.__init__ data = Ok (NSFFileHeader.Build [x1a; x00] v i c)).
Proof.
  assert (Hcases :
    (len data < 22 /\
       NSFFileHeader.__init__ data = Raise (NSFParseError "Invalid NSF header size"))
    \/ (22 <= len data /\ firstn 2 data <> [x1a; x00] /\
       NSFFileHeader.__init__ data = Raise (NSFParseError "Invalid NSF signature"))
    \/ (22 <= len data /\ firstn 2 data = [x1a; x00])).
  { unfold NSFFileHeader.__init__.
    destruct (Z.ltb_spec (len data) 22) as [Hl|Hl]; [left; auto|right].
    rewrite slice_from_0. change (Z.to_nat 2) with 2%nat.
    destruct (bytes_eqb (firstn 2 data) [x1a; x00]) eqn:E.
    - right. apply bytes_eqb_eq in E. auto.
    - left. repeat split; auto. intros Heq.
      apply bytes_eqb_eq in Heq. congruence. }
  repeat split.
  - intros [e He].
    destruct Hcases as [[H _]|[(_ & H & _)|[H1 H2]]]; auto.
    rewrite (file_header_accepts data H1 H2) in He. discriminate.
  - intros Hbad.
    destruct Hcases as [[_ H]|[(_ & _ & H)|[H1 H2]]]; eauto.
    destruct Hbad as [Hbad|Hbad]; [lia|contradiction].
  - intros e He.
    destruct Hcases as [[_ H]|[(_ & _ & H)|[H1 H2]]].
    + rewrite H in He. injection He as <-. eauto.
    + rewrite H in He. injection He as <-. eauto.
    + rewrite (file_header_accepts data H1 H2) in He. discriminate.
  - apply file_header_accepts.
  - intros v i c padding rest Hv Hi Hc Hp ->.
    unfold file_header_bytes. rewrite <- !app_assoc.
    apply (file_header_bytes_read v i c (padding ++ rest)); auto.
    rewrite len_app. pose proof (len_nonneg rest). lia.
Qed.

Lemma file_header_reader_witness :
  NSFFileHeader.__init__ (file_header_bytes 43 128 1 (repeat x00 14) ++ [x41]) =
  Ok (NSFFileHeader.Build [x1a; x00] 43 128 1).
Proof.
  apply (file_header_reader (file_header_bytes 43 128 1 (repeat x00 14) ++ [x41])
           : _ /\ _ /\ _ /\ _) with (padding := repeat x00 14) (rest := [x41]);
    try lia; reflexivity.
Defined.

(** ** LegacyTextDecoder *)

Lemma decode_utf8_ascii (h : errors) (t : bytes) :
  Forall (fun b => ord b < 0x80) t -> decode_utf8 h t = map ord t.
Proof.
  induction 1 as [|b t Hb _ IH]; [reflexivity|].
  simpl. destruct (Z.ltb_spec (ord b) 0x80); [|lia]. now rewrite IH.
Qed.

Lemma decode_utf8_ignore_stray (t : bytes) :
  Forall ascii_or_stray t ->
  decode_utf8 ignore t = map ord (filter (fun b => ord b <? 0x80) t).
Proof.
  induction 1 as [|b t Hb _ IH]; [reflexivity|].
  cbn [decode_utf8 filter].
  destruct (Z.ltb_spec (ord b) 0x80) as [Hlt|Hge].
  - cbn [map]. now rewrite IH.
  - destruct (Z.ltb_spec (ord b) 0xC2) as [?|HC2]; [exact IH|].
    destruct Hb as [?|[?|Hb]]; try lia.
    destruct (Z.ltb_spec (ord b) 0xE0); [lia|].
    destruct (Z.ltb_spec (ord b) 0xF0); [lia|].
    destruct (Z.ltb_spec (ord b) 0xF5); [lia|]. exact IH.
Qed.

Lemma decode_ascii_prefix (pre rest : bytes) :
  Forall ascii_text pre ->
  LMBCSDecoder.decode (pre ++ rest) = map ord pre ++ LMBCSDecoder.decode rest.
Proof.
  induction 1 as [|b t Hb _ IH]; [reflexivity|].
  red in Hb. cbn [app LMBCSDecoder.decode map].
  destruct (Z.eqb_spec (ord b) 0); [lia|].
  destruct (Z.ltb_spec (ord b) 0x80); [|lia]. now rewrite IH.
Qed.

(** C7, as the code has it.  Bytes below 0x80 that come before any NUL
    and any high byte are mapped to their own code points; a NUL at that
    point ends the decoding with exactly the prefix before it; the first
    byte from 0x80 on hands all the remaining bytes to one UTF-8 decoding
    that drops what it cannot decode (it puts no marker: stray bytes
    among ASCII bytes just disappear), and that ends the decoding.  The
    decoder is a total function: it never fails. *)
Theorem legacy_text_decoder (pre rest : bytes) :
  Forall ascii_text pre ->
  LMBCSDecoder.decode pre = map ord pre
  /\ LMBCSDecoder.decode (pre ++ x00 :: rest) = map ord pre
  /\ (forall h, 0x80 <= ord h ->
        LMBCSDecoder.decode (pre ++ h :: rest)
        = map ord pre ++ decode_utf8 ignore (h :: rest))
  /\ (forall h, 0x80 <= ord h -> Forall ascii_or_stray (h :: rest) ->
        LMBCSDecoder.decode (pre ++ h :: rest)
        = map ord pre ++ map ord (filter (fun b => ord b <? 0x80) (h :: rest))).
Proof.
  intros Hpre.
  assert (Hhigh : forall h, 0x80 <= ord h ->
            LMBCSDecoder.decode (h :: rest) = decode_utf8 ignore (h :: rest)).
  { intros h Hh. cbn [LMBCSDecoder.decode].
    destruct (Z.eqb_spec (ord h) 0); [lia|].
    destruct (Z.ltb_spec (ord h) 0x80); [lia|reflexivity]. }
  repeat split.
  - rewrite <- (app_nil_r pre) at 1. rewrite decode_ascii_prefix by assumption.
    apply app_nil_r.
  - rewrite decode_ascii_prefix by assumption. apply app_nil_r.
  - intros h Hh. rewrite decode_ascii_prefix by assumption.
    now rewrite Hhigh.
  - intros h Hh Hs. rewrite decode_ascii_prefix by assumption.
    rewrite Hhigh by assumption. now rewrite decode_utf8_ignore_stray.
Qed.

Lemma legacy_text_decoder_witness :
  LMBCSDecoder.decode ([x41; x62] ++ x00 :: [x63]) = [65; 98].
Proof.
  apply (legacy_text_decoder [x41; x62] [x63]).
  repeat constructor; vm_compute; reflexivity.
Defined.

(** C7 as stated fails: after "A", the stray byte FF leaves no marker. *)
Lemma legacy_text_decoder_counterexample :
  LMBCSDecoder.decode [x41; xff] = [65]
  /\ spec_decode [x41; xff] = [65; 0xFFFD]
  /\ LMBCSDecoder.decode [x41; xff] <> spec_decode [x41; xff].
Proof.
  repeat split. vm_compute. discriminate.
Qed.

(** ** DatabaseHeaderReader *)

Lemma split_nul_head_app (t rest : bytes) :
  Forall ascii_text t -> split_nul_head (t ++ x00 :: rest) = t.
Proof.
  induction 1 as [|b t Hb _ IH]; [reflexivity|].
  red in Hb. cbn [app split_nul_head].
  destruct (Z.eqb_spec (ord b) 0); [lia|]. now rewrite IH.
Qed.

Lemma title_window (pre t post : bytes) :
  len pre = 64 -> len t < 64 ->
  exists tail, slice (pre ++ t ++ x00 :: post) 64 128 = t ++ x00 :: tail.
Proof.
  unfold len, slice. intros Hpre Ht.
  assert (E64 : Z.to_nat 64 = length pre) by lia.
  rewrite E64, skipn_app, skipn_all, Nat.sub_diag. cbn [skipn app].
  replace (Z.to_nat (128 - 64)) with (length t + S (63 - length t))%nat by lia.
  rewrite firstn_app_2. cbn [firstn]. eauto.
Qed.

(** C2, as the code has it.  The reader is a total function.  On a
    buffer of more than 128 bytes the title is what the bytes 64 to 128
    hold before their first NUL, decoded as UTF-8 with undecodable bytes
    dropped, so a NUL-terminated ASCII title at offset 64 is returned as
    it is; on a buffer of fewer than 128 bytes the title is empty. *)
Theorem database_header_reader (info_buffer : bytes) :
  (128 < len info_buffer ->
     NSFDatabaseHeader.title (NSFDatabaseHeader.__init__ info_buffer)
     = decode_utf8 ignore (split_nul_head (slice info_buffer 64 128)))
  /\ (len info_buffer < 128 ->
     NSFDatabaseHeader.title (NSFDatabaseHeader.__init__ info_buffer) = [])
  /\ (forall pre t post,
        128 < len info_buffer ->
        info_buffer = pre ++ t ++ x00 :: post ->
        len pre = 64 -> len t < 64 -> Forall ascii_text t ->
        NSFDatabaseHeader.title (NSFDatabaseHeader.__init__ info_buffer)
        = map ord t).
Proof.
  assert (Hlong : 128 < len info_buffer ->
     NSFDatabaseHeader.title (NSFDatabaseHeader.__init__ info_buffer)
     = decode_utf8 ignore (split_nul_head (slice info_buffer 64 128))).
  { intros H. cbn [NSFDatabaseHeader.__init__ NSFDatabaseHeader.title].
    unfold NSFDatabaseHeader._parse_info_buffer.
    destruct (Z.ltb_spec 128 (len info_buffer)); [reflexivity|lia]. }
  repeat split.
  - exact Hlong.
  - intros H. cbn [NSFDatabaseHeader.__init__ NSFDatabaseHeader.title].
    unfold NSFDatabaseHeader._parse_info_buffer.
    destruct (Z.ltb_spec 128 (len info_buffer)); [lia|reflexivity].
  - intros pre t post Hlen -> Hpre Ht Hascii.
    rewrite Hlong by assumption.
    destruct (title_window pre t post Hpre Ht) as [tail ->].
    rewrite split_nul_head_app by assumption.
    apply decode_utf8_ascii.
    eapply Forall_impl; [|exact Hascii]. unfold ascii_text. intros; lia.
Qed.

Lemma database_header_reader_witness :
  NSFDatabaseHeader.title
    (NSFDatabaseHeader.__init__
       (repeat x00 64 ++ [x54; x69; x74; x6c; x65] ++ x00 :: repeat x00 59))
  = [84; 105; 116; 108; 101].
Proof.
  apply (database_header_reader
           (repeat x00 64 ++ [x54; x69; x74; x6c; x65] ++ x00 :: repeat x00 59)
           : _ /\ _ /\ _)
    with (pre := repeat x00 64) (t := [x54; x69; x74; x6c; x65])
         (post := repeat x00 59);
    try reflexivity.
  repeat constructor; vm_compute; reflexivity.
Defined.

(** C2 as stated fails: a buffer of 100 bytes holds "Title" at offset 64
    inside the clipped window, and the title read is empty. *)
Lemma database_header_reader_counterexample :
  let info_buffer := repeat x00 64 ++ [x54; x69; x74; x6c; x65] ++ repeat x00 31 in
  len info_buffer = 100
  /\ spec_title info_buffer = lit "Title"
  /\ NSFDatabaseHeader.title (NSFDatabaseHeader.__init__ info_buffer) = []
  /\ NSFDatabaseHeader.title (NSFDatabaseHeader.__init__ info_buffer)
     <> spec_title info_buffer.
Proof.
  repeat split. vm_compute. discriminate.
Qed.

(** ** ItemDecoder: the loop *)

Lemma unpack_H_range (b : bytes) (v : Z) : unpack_H b = Ok v -> 0 <= v < 65536.
Proof.
  destruct b as [|b0 [|b1 [|b2 r]]]; try discriminate.
  intros H. assert (E : v = ord b0 + 256 * ord b1).
  { unfold unpack_H in H. congruence. }
  pose proof (ord_range b0). pose proof (ord_range b1). lia.
Qed.

(** One turn of the loop, once the fuel is known to be enough. *)
Lemma parse_items_loop_step (fuel : nat) (data : bytes) (offset : Z)
    (items : dict bytes) :
  0 <= offset ->
  NSFNote._parse_items_loop (S fuel) data offset items =
  if len data - offset <? 8 then items
  else
    let ty := u16_at data offset in
    let item_length := u16_at data (offset + 2) in
    if (item_length =? 0) || (len data <? offset + item_length) then items
    else NSFNote._parse_items_loop fuel data (offset + 4 + item_length)
           (dict_set items (NSFNote.item_key ty)
              (slice data (offset + 4) (offset + 4 + item_length))).
Proof.
  intros H0. cbn [NSFNote._parse_items_loop].
  destruct (Z.ltb_spec (len data - offset) 8) as [Hs|Hl].
  - destruct (Z.ltb_spec offset (len data - 4)); [|reflexivity].
    destruct (Z.ltb_spec (len data) (offset + 8)); [reflexivity|lia].
  - destruct (Z.ltb_spec offset (len data - 4)); [|lia].
    destruct (Z.ltb_spec (len data) (offset + 8)); [lia|].
    rewrite unpack_H_at by lia.
    replace (offset + 4) with (offset + 2 + 2) at 1 by lia.
    rewrite unpack_H_at by lia. reflexivity.
Qed.

Lemma parse_items_loop_fuel (f1 f2 : nat) (data : bytes) (offset : Z)
    (items : dict bytes) :
  0 <= offset ->
  len data - offset < Z.of_nat f1 -> len data - offset < Z.of_nat f2 ->
  NSFNote._parse_items_loop f1 data offset items
  = NSFNote._parse_items_loop f2 data offset items.
Proof.
  revert f2 offset items.
  induction f1 as [|f1 IH]; intros f2 offset items H0 H1 H2.
  - destruct f2 as [|f2]; [reflexivity|].
    rewrite parse_items_loop_step by assumption. cbn [NSFNote._parse_items_loop].
    destruct (Z.ltb_spec (len data - offset) 8); [reflexivity|lia].
  - destruct f2 as [|f2].
    + rewrite parse_items_loop_step by assumption. cbn [NSFNote._parse_items_loop].
      destruct (Z.ltb_spec (len data - offset) 8); [reflexivity|lia].
    + rewrite !parse_items_loop_step by assumption.
      destruct (len data - offset <? 8); [reflexivity|]. cbv zeta.
      pose proof (u16_at_range data (offset + 2)).
      destruct (Z.eqb_spec (u16_at data (offset + 2)) 0); [reflexivity|].
      cbn [orb]. destruct (len data <? offset + u16_at data (offset + 2));
        [reflexivity|].
      apply IH; lia.
Qed.

Lemma items_from_step (data : bytes) (offset : Z) (items : dict bytes) :
  0 <= offset ->
  items_from data offset items =
  if len data - offset <? 8 then items
  else
    let ty := u16_at data offset in
    let item_length := u16_at data (offset + 2) in
    if (item_length =? 0) || (len data <? offset + item_length) then items
    else items_from data (offset + 4 + item_length)
           (dict_set items (NSFNote.item_key ty)
              (slice data (offset + 4) (offset + 4 + item_length))).
Proof.
  intros H0. unfold items_from at 1. rewrite parse_items_loop_step by assumption.
  destruct (len data - offset <? 8); [reflexivity|]. cbv zeta.
  pose proof (u16_at_range data (offset + 2)).
  destruct (Z.eqb_spec (u16_at data (offset + 2)) 0); [reflexivity|].
  cbn [orb]. destruct (len data <? offset + u16_at data (offset + 2));
    [reflexivity|].
  unfold items_from. apply parse_items_loop_fuel; unfold len in *; lia.
Qed.

Lemma parse_items_from_0 (data : bytes) :
  NSFNote._parse_items data = items_from data 0 [].
Proof. reflexivity. Qed.

Lemma u16_at_app (pre r : bytes) (k : Z) :
  0 <= k -> u16_at (pre ++ r) (len pre + k) = u16_at r k.
Proof.
  intros Hk. unfold u16_at, len.
  replace (Z.to_nat (Z.of_nat (length pre) + k))
    with (length pre + Z.to_nat k)%nat by lia.
  rewrite plus_n_Sm, !app_nth2_plus. reflexivity.
Qed.

Lemma slice_app (pre r : bytes) (a b : Z) :
  0 <= a -> slice (pre ++ r) (len pre + a) (len pre + b) = slice r a b.
Proof.
  intros Ha. unfold slice, len.
  replace (Z.of_nat (length pre) + b - (Z.of_nat (length pre) + a)) with (b - a) by lia.
  replace (Z.to_nat (Z.of_nat (length pre) + a))
    with (length pre + Z.to_nat a)%nat by lia.
  rewrite skipn_app, skipn_all2 by lia.
  replace (length pre + Z.to_nat a - length pre)%nat with (Z.to_nat a) by lia.
  reflexivity.
Qed.

Lemma slice_prefix (p r : bytes) : slice (p ++ r) 0 (len p) = p.
Proof.
  rewrite slice_from_0. unfold len. rewrite Nat2Z.id.
  rewrite firstn_app, Nat.sub_diag, firstn_all. cbn [firstn]. apply app_nil_r.
Qed.

Lemma len_encode_item (ty : Z) (payload : bytes) :
  len (encode_item ty payload) = 4 + len payload.
Proof.
  unfold encode_item, pack_H. rewrite !len_app. unfold len at 1 2.
  cbn [length]. lia.
Qed.

Lemma u16_encode_item (ty : Z) (payload r : bytes) :
  0 <= ty < 65536 -> 0 <= len payload < 65536 ->
  u16_at (encode_item ty payload ++ r) 0 = ty
  /\ u16_at (encode_item ty payload ++ r) 2 = len payload
  /\ slice (encode_item ty payload ++ r) 4 (4 + len payload) = payload.
Proof.
  intros Hty Hlen. unfold encode_item, pack_H, u16_at.
  change (Z.to_nat 0) with 0%nat. change (Z.to_nat 2) with 2%nat.
  cbn [app nth]. rewrite !u16_pack by assumption. repeat split.
  unfold slice. replace (Z.to_nat (4 + len payload - 4)) with (length payload)
    by (unfold len; lia).
  change (Z.to_nat 4) with 4%nat. cbn [skipn].
  rewrite firstn_app, Nat.sub_diag, firstn_all. cbn [firstn]. apply app_nil_r.
Qed.

(** Well-formed items followed by a tail too short for an 8-byte look:
    the items before the tail are stored and the tail is left alone. *)
Lemma items_from_encoded (l : list (Z * bytes)) :
  Forall well_formed_item l ->
  forall (pre tail : bytes) (items : dict bytes),
  4 <= len tail <= 7 ->
  items_from (pre ++ encode_items l ++ tail) (len pre) items
  = fold_left (fun d it => dict_set d (NSFNote.item_key (fst it)) (snd it)) l items.
Proof.
  induction 1 as [|[ty payload] l [Hty Hp] _ IH]; intros pre tail items Htail.
  - cbn [encode_items flat_map app fold_left].
    rewrite items_from_step by apply len_nonneg.
    rewrite len_app.
    destruct (Z.ltb_spec (len pre + len tail - len pre) 8); [reflexivity|lia].
  - cbn [fst snd] in Hty, Hp.
    cbn [encode_items flat_map fold_left fst snd]. fold (encode_items l).
    rewrite <- app_assoc.
    set (R := encode_items l ++ tail).
    assert (HR : 4 <= len R).
    { unfold R. rewrite len_app. pose proof (len_nonneg (encode_items l)). lia. }
    rewrite items_from_step by apply len_nonneg.
    rewrite !len_app, len_encode_item.
    destruct (Z.ltb_spec (len pre + (4 + len payload + len R) - len pre) 8); [lia|].
    cbv zeta.
    destruct (u16_encode_item ty payload R) as (E0 & E2 & E4); [lia|lia|].
    pose proof (u16_at_app pre (encode_item ty payload ++ R) 0 (Z.le_refl 0)) as A0.
    rewrite Z.add_0_r, E0 in A0.
    rewrite A0, u16_at_app, E2 by lia.
    destruct (Z.eqb_spec (len payload) 0); [lia|]. cbn [orb].
    destruct (Z.ltb_spec (len pre + (4 + len payload + len R)) (len pre + len payload));
      [lia|].
    replace (len pre + 4 + len payload) with (len pre + (4 + len payload)) by lia.
    rewrite slice_app by lia. rewrite E4.
    rewrite app_assoc. rewrite <- len_encode_item with (ty := ty), <- len_app.
    unfold R. apply IH. assumption.
Qed.

(** C8, as the code has it.  From any offset the item loop goes on only
    with at least 8 bytes left, a non-zero length field and
    [offset + length] inside the payload; it then stores the item and
    moves past it.  In every other case it stops and the mapping built so
    far is the result.  So a payload of well-formed items followed by a
    tail of 4 to 7 bytes yields the items before the tail, and the tail
    is never read as an item. *)
Theorem item_decoder_stops (data : bytes) (offset : Z) (items : dict bytes) :
  0 <= offset ->
  (len data - offset < 8 -> items_from data offset items = items)
  /\ (u16_at data (offset + 2) = 0 -> items_from data offset items = items)
  /\ (len data < offset + u16_at data (offset + 2) ->
      items_from data offset items = items)
  /\ (8 <= len data - offset ->
      u16_at data (offset + 2) <> 0 ->
      offset + u16_at data (offset + 2) <= len data ->
      items_from data offset items
      = items_from data (offset + 4 + u16_at data (offset + 2))
          (dict_set items (NSFNote.item_key (u16_at data offset))
             (slice data (offset + 4) (offset + 4 + u16_at data (offset + 2)))))
  /\ (forall l tail,
        Forall well_formed_item l -> 4 <= len tail <= 7 ->
        data = encode_items l ++ tail ->
        NSFNote._parse_items data = store_all l).
Proof.
  intros H0. pose proof (items_from_step data offset items H0) as Hstep.
  cbv zeta in Hstep. repeat split.
  - intros H. rewrite Hstep.
    destruct (Z.ltb_spec (len data - offset) 8); [reflexivity|lia].
  - intros H. rewrite Hstep, H. cbn [Z.eqb orb].
    destruct (len data - offset <? 8); reflexivity.
  - intros H. rewrite Hstep.
    destruct (Z.ltb_spec (len data) (offset + u16_at data (offset + 2))); [|lia].
    rewrite orb_true_r. destruct (len data - offset <? 8); reflexivity.
  - intros H8 Hnz Hin. rewrite Hstep.
    destruct (Z.ltb_spec (len data - offset) 8); [lia|].
    destruct (Z.eqb_spec (u16_at data (offset + 2)) 0); [contradiction|].
    destruct (Z.ltb_spec (len data) (offset + u16_at data (offset + 2))); [lia|].
    reflexivity.
  - intros l tail Hl Htail ->. rewrite parse_items_from_0.
    apply (items_from_encoded l Hl [] tail [] Htail).
Qed.

Lemma item_decoder_stops_witness :
  NSFNote._parse_items
    (encode_items [(1, [x61; x62; x63; x64])] ++ [x02; x00; x01; x00; x78])
  = store_all [(1, [x61; x62; x63; x64])].
Proof.
  apply (item_decoder_stops
           (encode_items [(1, [x61; x62; x63; x64])] ++ [x02; x00; x01; x00; x78])
           0 [] (Z.le_refl 0) : _ /\ _ /\ _ /\ _ /\ _)
    with (tail := [x02; x00; x01; x00; x78]).
  - repeat constructor; vm_compute; congruence.
  - vm_compute. split; congruence.
  - reflexivity.
Defined.

(** C8 as stated fails: after one item of 4 bytes, a tail of 5 bytes
    holds an item of type 2 and length 1 that fits; 5 bytes remain, the
    length is not 0 and [8 + 1] is inside the 13 bytes, yet the scan has
    stopped and only the first item is in the mapping. *)
Lemma item_decoder_stops_counterexample :
  let data := [x01; x00; x04; x00; x61; x62; x63; x64; x02; x00; x01; x00; x78] in
  4 <= len data - 8
  /\ u16_at data (8 + 2) = 1
  /\ 8 + u16_at data (8 + 2) <= len data
  /\ spec_parse_items data
     = [(NSFNote.item_key 1, [x61; x62; x63; x64]); (NSFNote.item_key 2, [x78])]
  /\ NSFNote._parse_items data = [(NSFNote.item_key 1, [x61; x62; x63; x64])]
  /\ NSFNote._parse_items data <> spec_parse_items data.
Proof.
  repeat split; try (vm_compute; congruence).
Qed.

(** ** ItemDecoder: what is stored *)

Lemma parse_items_loop_trace (fuel : nat) (data : bytes) (offset : Z)
    (items : dict bytes) :
  NSFNote._parse_items_loop fuel data offset items
  = fold_left store (scan_trace fuel data offset) items.
Proof.
  revert offset items. induction fuel as [|fuel IH]; intros offset items;
    [reflexivity|].
  cbn [NSFNote._parse_items_loop scan_trace].
  destruct (offset <? len data - 4); [|reflexivity].
  destruct (len data <? offset + 8); [reflexivity|].
  destruct (unpack_H (slice data offset (offset + 2))) as [ty|e]; [|reflexivity].
  destruct (unpack_H (slice data (offset + 2) (offset + 4))) as [n|e];
    [|reflexivity].
  destruct ((n =? 0) || (len data <? offset + n)); [reflexivity|].
  cbn [fold_left]. rewrite IH. reflexivity.
Qed.

Lemma parse_items_trace (data : bytes) :
  NSFNote._parse_items data = fold_left store (scanned_items data) [].
Proof. apply parse_items_loop_trace. Qed.

Lemma scan_trace_types (fuel : nat) (data : bytes) (offset : Z) :
  Forall (fun it => 0 <= item_type it < 65536) (scan_trace fuel data offset).
Proof.
  revert offset. induction fuel as [|fuel IH]; intros offset; [constructor|].
  cbn [scan_trace].
  destruct (offset <? len data - 4); [|constructor].
  destruct (len data <? offset + 8); [constructor|].
  destruct (unpack_H (slice data offset (offset + 2))) as [ty|e] eqn:E;
    [|constructor].
  destruct (unpack_H (slice data (offset + 2) (offset + 4))) as [n|e'];
    [|constructor].
  destruct ((n =? 0) || (len data <? offset + n)); constructor.
  - cbn [item_type]. eapply unpack_H_range, E.
  - apply IH.
Qed.

Lemma lit_inj (s1 s2 : string) : lit s1 = lit s2 -> s1 = s2.
Proof.
  unfold lit. intros H.
  rewrite <- (string_of_list_ascii_of_string s1),
          <- (string_of_list_ascii_of_string s2).
  f_equal. revert H.
  generalize (list_ascii_of_string s1) (list_ascii_of_string s2).
  induction l as [|a l IH]; intros [|b l']; cbn [map]; try discriminate; auto.
  intros H. injection H as Hab Hl. apply N2Z.inj in Hab.
  f_equal; auto.
  rewrite <- (ascii_N_embedding a), <- (ascii_N_embedding b). now rewrite Hab.
Qed.

Lemma str_of_int_inj (a b : Z) :
  0 <= a -> 0 <= b -> str_of_int a = str_of_int b -> a = b.
Proof.
  unfold str_of_int. intros Ha Hb H. apply lit_inj in H.
  assert (E : N.to_uint (Z.to_N a) = N.to_uint (Z.to_N b)).
  { pose proof (NilEmpty.usu (N.to_uint (Z.to_N a))) as Ea.
    pose proof (NilEmpty.usu (N.to_uint (Z.to_N b))) as Eb.
    rewrite H in Ea. congruence. }
  apply DecimalN.Unsigned.to_uint_inj in E. lia.
Qed.

Lemma item_key_inj (a b : Z) :
  0 <= a -> 0 <= b -> NSFNote.item_key a = NSFNote.item_key b -> a = b.
Proof.
  unfold NSFNote.item_key. intros Ha Hb H.
  apply app_inv_head in H. now apply str_of_int_inj.
Qed.

Lemma dict_get_set {V} (d : dict V) (k q : str) (v : V) :
  dict_get (dict_set d k v) q = if str_eqb k q then Some v else dict_get d q.
Proof.
  induction d as [|[k' v'] d IH]; cbn [dict_set dict_get].
  - reflexivity.
  - destruct (str_eqb k' k) eqn:E.
    + apply str_eqb_eq in E. subst k'. cbn [dict_get].
      destruct (str_eqb k q); reflexivity.
    + cbn [dict_get]. destruct (str_eqb k' q) eqn:E'; [|exact IH].
      apply str_eqb_eq in E'. subst k'.
      destruct (str_eqb k q) eqn:Ekq; [|reflexivity].
      apply str_eqb_eq in Ekq. subst k. rewrite str_eqb_refl in E. discriminate.
Qed.

Lemma dict_set_length {V} (d : dict V) (k : str) (v : V) :
  length (dict_set d k v)
  = match dict_get d k with Some _ => length d | None => S (length d) end.
Proof.
  induction d as [|[k' v'] d IH]; cbn [dict_set dict_get]; [reflexivity|].
  destruct (str_eqb k' k); cbn [length]; [reflexivity|].
  rewrite IH. destruct (dict_get d k); reflexivity.
Qed.

Lemma entries_for_set (d : dict bytes) (k q : str) (v : bytes) :
  entries_for q (dict_set d k v)
  = match dict_get d k with
    | Some _ => entries_for q d
    | None => ((if str_eqb k q then 1 else 0) + entries_for q d)%nat
    end.
Proof.
  unfold entries_for.
  induction d as [|[k' v'] d IH]; cbn [dict_set dict_get filter fst].
  - destruct (str_eqb k q); reflexivity.
  - destruct (str_eqb k' k) eqn:E; cbn [filter fst].
    + destruct (str_eqb k' q); reflexivity.
    + destruct (str_eqb k' q); cbn [length]; rewrite IH;
        destruct (dict_get d k); lia.
Qed.

Lemma entries_for_absent (d : dict bytes) (q : str) :
  dict_get d q = None -> entries_for q d = 0%nat.
Proof.
  unfold entries_for.
  induction d as [|[k' v'] d IH]; cbn [dict_get filter fst]; [reflexivity|].
  destruct (str_eqb k' q); [discriminate|exact IH].
Qed.

(** An insertion-ordered mapping with one entry per key. *)
Lemma entries_for_store (tr : list scanned_item) (d : dict bytes) (q : str) :
  (forall k, entries_for k d <= 1)%nat ->
  (entries_for q (fold_left store tr d) <= 1)%nat.
Proof.
  revert d. induction tr as [|it tr IH]; intros d Hd; cbn [fold_left]; [apply Hd|].
  apply IH. intros k. unfold store. rewrite entries_for_set.
  destruct (dict_get d (NSFNote.item_key (item_type it))) eqn:E; [apply Hd|].
  destruct (str_eqb (NSFNote.item_key (item_type it)) k) eqn:Ek.
  - apply str_eqb_eq in Ek. subst k. rewrite entries_for_absent by assumption. lia.
  - cbn [Nat.add]. apply Hd.
Qed.

Lemma entries_for_present (d : dict bytes) (q : str) (v : bytes) :
  dict_get d q = Some v -> (1 <= entries_for q d)%nat.
Proof.
  unfold entries_for.
  induction d as [|[k' v'] d IH]; cbn [dict_get filter fst]; [discriminate|].
  destruct (str_eqb k' q); cbn [length]; [lia|exact IH].
Qed.

Lemma get_after_store (ty : Z) (tr : list scanned_item) (d : dict bytes) :
  0 <= ty -> Forall (fun it => 0 <= item_type it < 65536) tr ->
  dict_get (fold_left store tr d) (NSFNote.item_key ty)
  = fold_left (fun acc it => if item_type it =? ty then Some (stored it) else acc)
              tr (dict_get d (NSFNote.item_key ty)).
Proof.
  intros Hty Htr. revert d.
  induction Htr as [|it tr Hit _ IH]; intros d; cbn [fold_left]; [reflexivity|].
  rewrite IH. f_equal. unfold store. rewrite dict_get_set.
  destruct (Z.eqb_spec (item_type it) ty) as [->|Hne].
  - now rewrite str_eqb_refl.
  - rewrite str_eqb_neq; [reflexivity|].
    intros H. apply item_key_inj in H; lia.
Qed.

Lemma last_of_type_some (ty : Z) (tr : list scanned_item) (acc : option bytes) :
  acc <> None \/ (1 <= occurrences ty tr)%nat ->
  exists v, fold_left (fun acc it => if item_type it =? ty then Some (stored it) else acc)
              tr acc = Some v.
Proof.
  unfold occurrences. revert acc.
  induction tr as [|it tr IH]; intros acc; cbn [filter length fold_left].
  - intros [H|H]; [|lia]. destruct acc; [eauto|contradiction].
  - destruct (item_type it =? ty).
    + intros _. apply IH. left. discriminate.
    + intros H. apply IH, H.
Qed.

Lemma store_length (d : dict bytes) (it : scanned_item) :
  length (store d it)
  = match dict_get d (NSFNote.item_key (item_type it)) with
    | Some _ => length d
    | None => S (length d)
    end.
Proof. apply dict_set_length. Qed.

Lemma store_length_le (tr : list scanned_item) (d : dict bytes) :
  (length (fold_left store tr d) <= length d + length tr)%nat.
Proof.
  revert d. induction tr as [|it tr IH]; intros d; cbn [fold_left length]; [lia|].
  specialize (IH (store d it)). pose proof (store_length d it) as L.
  destruct (dict_get d (NSFNote.item_key (item_type it))); lia.
Qed.

Lemma store_length_present (ty : Z) (tr : list scanned_item) (d : dict bytes) :
  dict_get d (NSFNote.item_key ty) <> None ->
  (1 <= occurrences ty tr)%nat ->
  (length (fold_left store tr d) < length d + length tr)%nat.
Proof.
  unfold occurrences. revert d.
  induction tr as [|it tr IH]; intros d Hd; cbn [filter length fold_left]; [lia|].
  pose proof (store_length d it) as L.
  destruct (Z.eqb_spec (item_type it) ty) as [E|E].
  - intros _. pose proof (store_length_le tr (store d it)) as Hle.
    rewrite E in L.
    destruct (dict_get d (NSFNote.item_key ty)); [lia|contradiction].
  - intros Hocc. assert (Hd' : dict_get (store d it) (NSFNote.item_key ty) <> None).
    { unfold store. rewrite dict_get_set.
      destruct (str_eqb _ _); [discriminate|exact Hd]. }
    specialize (IH (store d it) Hd' Hocc).
    destruct (dict_get d (NSFNote.item_key (item_type it))); lia.
Qed.

Lemma store_length_duplicate (ty : Z) (tr : list scanned_item) (d : dict bytes) :
  (2 <= occurrences ty tr)%nat ->
  (length (fold_left store tr d) < length d + length tr)%nat.
Proof.
  unfold occurrences. revert d.
  induction tr as [|it tr IH]; intros d; cbn [filter length fold_left]; [lia|].
  pose proof (store_length d it) as L.
  destruct (Z.eqb_spec (item_type it) ty) as [E|E].
  - cbn [length]. intros Hocc.
    assert (Hd' : dict_get (store d it) (NSFNote.item_key ty) <> None).
    { unfold store. rewrite dict_get_set, E, str_eqb_refl. discriminate. }
    pose proof (store_length_present ty tr (store d it) Hd') as Hlt.
    unfold occurrences in Hlt. specialize (Hlt ltac:(lia)).
    destruct (dict_get d (NSFNote.item_key (item_type it))); lia.
  - intros Hocc. specialize (IH (store d it) Hocc).
    destruct (dict_get d (NSFNote.item_key (item_type it))); lia.
Qed.

Lemma occurrences_in (ty : Z) (tr : list scanned_item) :
  (1 <= occurrences ty tr)%nat -> exists it, In it tr /\ item_type it = ty.
Proof.
  unfold occurrences. intros H.
  destruct (filter (fun it => item_type it =? ty) tr) as [|it r] eqn:F;
    [cbn in H; lia|].
  assert (Hin : In it (filter (fun it => item_type it =? ty) tr))
    by (rewrite F; left; reflexivity).
  apply filter_In in Hin. destruct Hin as [Hin E]. apply Z.eqb_eq in E. eauto.
Qed.

Lemma entries_for_in (d : dict bytes) (k : str) (v : bytes) :
  In (k, v) d -> (1 <= entries_for k d)%nat.
Proof.
  unfold entries_for.
  induction d as [|[k' v'] d IH]; cbn [In filter fst]; [tauto|].
  intros [H|H].
  - injection H as -> ->. rewrite str_eqb_refl. cbn [length]. lia.
  - destruct (str_eqb k' k); cbn [length]; auto.
Qed.

Lemma single_entry_value (d : dict bytes) (k : str) (v v' : bytes) :
  (entries_for k d <= 1)%nat -> dict_get d k = Some v -> In (k, v') d -> v' = v.
Proof.
  unfold entries_for.
  induction d as [|[k' w] d IH]; cbn [In filter fst dict_get]; [tauto|].
  destruct (str_eqb k' k) eqn:E; cbn [length]; intros Hle Hget [Hin|Hin].
  - congruence.
  - apply entries_for_in in Hin. unfold entries_for in Hin. lia.
  - injection Hin as -> _. rewrite str_eqb_refl in E. discriminate.
  - auto.
Qed.

(** C10.  When the scan of a payload meets a type code twice or more,
    the mapping has exactly one entry under the key made from that type,
    its value is the bytes of the last scanned item of the type, no
    entry under the key has any other value, and the mapping has fewer
    entries than items were scanned. *)
Theorem duplicate_items_keep_last (data : bytes) (ty : Z) :
  (2 <= occurrences ty (scanned_items data))%nat ->
  entries_for (NSFNote.item_key ty) (NSFNote._parse_items data) = 1%nat
  /\ (exists v,
        last_of_type ty (scanned_items data) = Some v
        /\ dict_get (NSFNote._parse_items data) (NSFNote.item_key ty) = Some v
        /\ forall v', In (NSFNote.item_key ty, v') (NSFNote._parse_items data) ->
                      v' = v)
  /\ (length (NSFNote._parse_items data) < length (scanned_items data))%nat.
Proof.
  intros Hocc. rewrite parse_items_trace.
  pose proof (scan_trace_types (S (length data)) data 0) as Htypes.
  fold (scanned_items data) in Htypes.
  destruct (occurrences_in ty (scanned_items data)) as (it & Hin & Hit); [lia|].
  assert (Hty : 0 <= ty < 65536).
  { rewrite Forall_forall in Htypes. rewrite <- Hit. auto. }
  destruct (last_of_type_some ty (scanned_items data) None) as [v Hv];
    [right; lia|].
  assert (Hget : dict_get (fold_left store (scanned_items data) [])
                          (NSFNote.item_key ty) = Some v).
  { rewrite get_after_store by (auto; lia). exact Hv. }
  assert (Hle : (entries_for (NSFNote.item_key ty)
                   (fold_left store (scanned_items data) []) <= 1)%nat).
  { apply entries_for_store. intros k. cbn. lia. }
  repeat split.
  - pose proof (entries_for_present _ _ _ Hget). lia.
  - exists v. repeat split; auto.
    intros v' Hv'. eapply single_entry_value; eauto.
  - apply (store_length_duplicate ty (scanned_items data) [] Hocc).
Qed.

Lemma duplicate_items_keep_last_witness :
  entries_for (NSFNote.item_key 1)
    (NSFNote._parse_items
       (encode_items [(1, [x61; x62; x63; x64]); (1, [x65; x66; x67; x68])]))
  = 1%nat.
Proof.
  apply (duplicate_items_keep_last
           (encode_items [(1, [x61; x62; x63; x64]); (1, [x65; x66; x67; x68])]) 1).
  vm_compute. lia.
Defined.

(** C9 on the payload 01 00 08 00 61 62 63 64: one item is scanned, its
    prefix declares 8 bytes, 4 bytes follow the prefix, and those 4 bytes
    are what the mapping holds for it. *)
Theorem stored_item_shorter_than_declared :
  let data := [x01; x00; x08; x00; x61; x62; x63; x64] in
  scanned_items data = [Scanned 0 1 8 [x61; x62; x63; x64]]
  /\ NSFNote._parse_items data = [(NSFNote.item_key 1, [x61; x62; x63; x64])]
  /\ len [x61; x62; x63; x64] < 8
  /\ len data < 0 + 4 + 8.
Proof.
  repeat split.
Qed.

(** ** NoteStreamScanner *)

Lemma parse_notes_loop_fuel (f1 f2 : nat) (stream : bytes)
    (notes : list NSFNote.t) (note_id : Z) :
  (length stream < f1)%nat -> (length stream < f2)%nat ->
  NSFParser._parse_notes_loop f1 stream notes note_id
  = NSFParser._parse_notes_loop f2 stream notes note_id.
Proof.
  revert f2 stream notes note_id.
  induction f1 as [|f1 IH]; intros f2 stream notes note_id H1 H2; [lia|].
  destruct f2 as [|f2]; [lia|].
  cbn [NSFParser._parse_notes_loop]. unfold read.
  destruct (Z.ltb_spec (len (firstn (Z.to_nat 16) stream)) 16) as [|H16];
    [reflexivity|].
  destruct (unpack_H _) as [note_class|]; [|reflexivity].
  destruct (unpack_L _) as [note_length|]; [|reflexivity].
  destruct (Z.eqb_spec note_length 0); [reflexivity|]. cbn [orb].
  destruct (1024 * 1024 <? note_length); [reflexivity|].
  destruct (len (firstn (Z.to_nat note_length) (skipn (Z.to_nat 16) stream))
            <? note_length); [reflexivity|].
  destruct (100 <? len _); [reflexivity|].
  unfold len in H16. rewrite length_firstn in H16.
  apply IH; rewrite !length_skipn; lia.
Qed.

Lemma parse_notes_loop_bound (fuel : nat) (stream : bytes)
    (notes : list NSFNote.t) (note_id : Z) :
  len notes <= 100 ->
  len (NSFParser._parse_notes_loop fuel stream notes note_id) <= 101.
Proof.
  revert stream notes note_id.
  induction fuel as [|fuel IH]; intros stream notes note_id Hn;
    cbn [NSFParser._parse_notes_loop]; [lia|].
  unfold read.
  destruct (len (firstn (Z.to_nat 16) stream) <? 16); [lia|].
  destruct (unpack_H _) as [note_class|]; [|lia].
  destruct (unpack_L _) as [note_length|]; [|lia].
  destruct ((note_length =? 0) || (1024 * 1024 <? note_length)); [lia|].
  destruct (len (firstn (Z.to_nat note_length) (skipn (Z.to_nat 16) stream))
            <? note_length); [lia|].
  destruct (Z.ltb_spec 100 (len (notes ++
     [NSFNote.__init__ note_id note_class
        (firstn (Z.to_nat note_length) (skipn (Z.to_nat 16) stream))]))) as [|Hle].
  - rewrite len_app. unfold len at 2. cbn [length]. lia.
  - apply IH. exact Hle.
Qed.

(** C1 on the code: a fresh parser keeps at most 101 notes of any
    stream, and of a stream of 150 well-formed frames it keeps 101: the
    loop is left after the append that makes the list longer than 100. *)
Theorem note_scan_keeps_101 :
  (forall stream,
     len (NSFParser._parse_notes NSFParser.__init__ stream) <= 101)
  /\ len (NSFParser._parse_notes NSFParser.__init__
            (concat (repeat (frame 512 [x41]) 150))) = 101.
Proof.
  split.
  - intros stream. apply parse_notes_loop_bound. cbn. lia.
  - vm_compute. reflexivity.
Qed.

(** ** ModelBuilder *)

(** C3, as the code has it.  When the header is accepted and the scan
    accepts no frame, the parse of a fresh parser returns a model whose
    only form is the default form, with the 4 fields Title (required
    text), Content (rich text), Author (text) and Created (datetime), in
    this order, whose only view is the default view, marked as the
    default view, and which has no document. *)
Theorem default_form_and_view (content : bytes) (filename : str)
    (clk : clock) (k : nat) (fh : NSFFileHeader.t) :
  NSFFileHeader.__init__ (fst (read content 22)) = Ok fh ->
  NSFParser._parse_notes NSFParser.__init__
    (snd (read (snd (read content 22)) (NSFFileHeader.info_buffer_size fh))) = [] ->
  exists self app k',
    NSFParser.parse_file NSFParser.__init__ content filename clk k
    = (self, Ok app, k')
    /\ NSFParser.notes self = []
    /\ ApplicationModel.forms app = [NSFParser._create_default_form]
    /\ map (fun f => (FieldModel.name f, FieldModel.type f, FieldModel.required f))
           (FormModel.fields NSFParser._create_default_form)
       = [ (lit "Title", TEXT, true); (lit "Content", RICH_TEXT, false);
           (lit "Author", TEXT, false); (lit "Created", DATETIME, false) ]
    /\ ApplicationModel.views app = [NSFParser._create_default_view]
    /\ ViewModel.default_view NSFParser._create_default_view = true
    /\ ApplicationModel.documents app = [].
Proof.
  intros Hfh Hnotes.
  unfold NSFParser.parse_file, NSFParser._parse_nsf_stream, bind.
  destruct (read content 22) as [header_data stream] eqn:R1.
  cbn [fst snd] in Hfh, Hnotes. rewrite Hfh.
  destruct (read stream (NSFFileHeader.info_buffer_size fh))
    as [db_header_data stream'] eqn:R2.
  cbn [fst snd] in Hnotes.
  cbn [NSFParser.notes NSFParser.db_header NSFParser.file_header].
  change (NSFParser.Build (Some fh) None [])
    with (NSFParser.Build (Some fh) (NSFParser.db_header NSFParser.__init__)
                          (NSFParser.notes NSFParser.__init__)) in *.
  unfold NSFParser._parse_notes in *. cbn [NSFParser.notes NSFParser.__init__] in *.
  rewrite Hnotes.
  unfold NSFParser._build_application_model, bind, now, ret.
  cbn [NSFParser.notes NSFParser.db_header NSFParser.visit_notes ret
       ApplicationModel.forms ApplicationModel.views NSFParser.add_form
       NSFParser.add_view app].
  do 3 eexists. split; [reflexivity|]. repeat split.
Qed.

Lemma default_form_and_view_witness :
  exists self app k',
    NSFParser.parse_file NSFParser.__init__
      (file_header_bytes 43 0 1 (repeat x00 14)) (lit "a.nsf") (fun _ => 7) 0%nat
    = (self, Ok app, k')
    /\ ApplicationModel.forms app = [NSFParser._create_default_form].
Proof.
  destruct (default_form_and_view
              (file_header_bytes 43 0 1 (repeat x00 14)) (lit "a.nsf")
              (fun _ => 7) 0%nat (NSFFileHeader.Build [x1a; x00] 43 0 1)
              eq_refl eq_refl)
    as (self & app & k' & H & _ & Hforms & _).
  exists self, app, k'. split; assumption.
Defined.

(** C3 as stated fails: the only form of a stream without frames has 4
    fields, not the 3 canonical ones. *)
Lemma default_form_and_view_counterexample :
  exists self app k',
    NSFParser.parse_file NSFParser.__init__
      (file_header_bytes 43 0 1 (repeat x00 14)) (lit "a.nsf") (fun _ => 7) 0%nat
    = (self, Ok app, k')
    /\ NSFParser.notes self = []
    /\ (exists f, ApplicationModel.forms app = [f]
                  /\ length (FormModel.fields f) = 4%nat
                  /\ FormModel.fields f <> canonical_fields).
Proof.
  do 3 eexists. split; [vm_compute; reflexivity|]. split; [reflexivity|].
  eexists. split; [reflexivity|]. split; [reflexivity|].
  vm_compute. discriminate.
Qed.

(** ** Determinism up to the clock *)

Lemma without_dates_add_form (a b : ApplicationModel.t) (f g : FormModel.t) :
  without_dates a = without_dates b ->
  form_without_dates f = form_without_dates g ->
  without_dates (NSFParser.add_form a f) = without_dates (NSFParser.add_form b g).
Proof.
  destruct a, b. unfold without_dates. cbn. intros H Hf.
  injection H as -> -> -> H1 H2 H3.
  rewrite !map_app. cbn [map]. congruence.
Qed.

Lemma without_dates_add_view (a b : ApplicationModel.t) (v w : ViewModel.t) :
  without_dates a = without_dates b ->
  view_without_dates v = view_without_dates w ->
  without_dates (NSFParser.add_view a v) = without_dates (NSFParser.add_view b w).
Proof.
  destruct a, b. unfold without_dates. cbn. intros H Hf.
  injection H as -> -> -> H1 H2 H3.
  rewrite !map_app. cbn [map]. congruence.
Qed.

Lemma without_dates_add_document (a b : ApplicationModel.t) (x y : DocumentModel.t) :
  without_dates a = without_dates b ->
  document_without_dates x = document_without_dates y ->
  without_dates (NSFParser.add_document a x)
  = without_dates (NSFParser.add_document b y).
Proof.
  destruct a, b. unfold without_dates. cbn. intros H Hf.
  injection H as -> -> -> H1 H2 H3.
  rewrite !map_app. cbn [map]. congruence.
Qed.

Lemma visit_note_without_dates (note : NSFNote.t) (a b : ApplicationModel.t)
    (clk1 clk2 : clock) (k1 k2 : nat) :
  without_dates a = without_dates b ->
  without_dates (fst (NSFParser.visit_note note a clk1 k1))
  = without_dates (fst (NSFParser.visit_note note b clk2 k2)).
Proof.
  intros H. unfold NSFParser.visit_note.
  destruct (NSFParser._is_form_note note).
  { cbn. apply without_dates_add_form; [exact H|reflexivity]. }
  destruct (NSFParser._is_view_note note).
  { cbn. apply without_dates_add_view; [exact H|reflexivity]. }
  destruct (NSFParser._is_document_note note).
  { cbn. apply without_dates_add_document; [exact H|reflexivity]. }
  exact H.
Qed.

Lemma visit_notes_without_dates (notes : list NSFNote.t)
    (a b : ApplicationModel.t) (clk1 clk2 : clock) (k1 k2 : nat) :
  without_dates a = without_dates b ->
  without_dates (fst (NSFParser.visit_notes notes a clk1 k1))
  = without_dates (fst (NSFParser.visit_notes notes b clk2 k2)).
Proof.
  revert a b k1 k2. induction notes as [|note notes IH]; intros a b k1 k2 H.
  - exact H.
  - cbn [NSFParser.visit_notes]. unfold bind.
    pose proof (visit_note_without_dates note a b clk1 clk2 k1 k2 H) as Hn.
    destruct (NSFParser.visit_note note a clk1 k1) as [a' k1'].
    destruct (NSFParser.visit_note note b clk2 k2) as [b' k2'].
    apply IH. exact Hn.
Qed.

Lemma default_form_without_dates (a b : ApplicationModel.t) :
  without_dates a = without_dates b ->
  without_dates (match ApplicationModel.forms a with
                 | [] => NSFParser.add_form a NSFParser._create_default_form
                 | _ => a
                 end)
  = without_dates (match ApplicationModel.forms b with
                   | [] => NSFParser.add_form b NSFParser._create_default_form
                   | _ => b
                   end).
Proof.
  intros H.
  assert (E : map form_without_dates (ApplicationModel.forms a)
              = map form_without_dates (ApplicationModel.forms b)).
  { unfold without_dates in H. congruence. }
  destruct (ApplicationModel.forms a), (ApplicationModel.forms b);
    try discriminate E; auto.
  now apply without_dates_add_form.
Qed.

Lemma default_view_without_dates (a b : ApplicationModel.t) :
  without_dates a = without_dates b ->
  without_dates (match ApplicationModel.views a with
                 | [] => NSFParser.add_view a NSFParser._create_default_view
                 | _ => a
                 end)
  = without_dates (match ApplicationModel.views b with
                   | [] => NSFParser.add_view b NSFParser._create_default_view
                   | _ => b
                   end).
Proof.
  intros H.
  assert (E : map view_without_dates (ApplicationModel.views a)
              = map view_without_dates (ApplicationModel.views b)).
  { unfold without_dates in H. congruence. }
  destruct (ApplicationModel.views a), (ApplicationModel.views b);
    try discriminate E; auto.
  now apply without_dates_add_view.
Qed.

Lemma build_without_dates (self : NSFParser.t) (filename : str)
    (clk1 clk2 : clock) (k1 k2 : nat) :
  result_without_dates (fst (NSFParser._build_application_model self filename clk1 k1))
  = result_without_dates (fst (NSFParser._build_application_model self filename clk2 k2)).
Proof.
  unfold NSFParser._build_application_model.
  destruct (NSFParser.db_header self) as [dbh|]; [|reflexivity].
  unfold bind, now, ret.
  match goal with
  | |- context [NSFParser.visit_notes ?n ?a clk1 ?k] =>
      match goal with
      | |- context [NSFParser.visit_notes n ?b clk2 ?k'] =>
          pose proof (visit_notes_without_dates n a b clk1 clk2 k k' eq_refl) as Hv;
          destruct (NSFParser.visit_notes n a clk1 k) as [a' k1'];
          destruct (NSFParser.visit_notes n b clk2 k') as [b' k2']
      end
  end.
  cbn [fst result_without_dates] in *. f_equal.
  apply default_view_without_dates, default_form_without_dates, Hv.
Qed.

(** C5, as the code has it.  Two runs of a fresh parser on the same
    bytes and the same file name, whatever the clock shows during each,
    leave the parser in the same state, fail or succeed alike, and
    return models that are equal once the clock readings (the dates of
    the model, of its forms, views and documents, and the date text in
    the document fields) are taken out. *)
Theorem parse_deterministic_up_to_dates (content : bytes) (filename : str)
    (clk1 clk2 : clock) (k1 k2 : nat) :
  fst (fst (NSFParser.parse_file NSFParser.__init__ content filename clk1 k1))
  = fst (fst (NSFParser.parse_file NSFParser.__init__ content filename clk2 k2))
  /\ result_without_dates
       (snd (fst (NSFParser.parse_file NSFParser.__init__ content filename clk1 k1)))
     = result_without_dates
       (snd (fst (NSFParser.parse_file NSFParser.__init__ content filename clk2 k2))).
Proof.
  unfold NSFParser.parse_file, NSFParser._parse_nsf_stream, bind, ret.
  destruct (read content 22) as [header_data stream].
  destruct (NSFFileHeader.__init__ header_data) as [fh|e]; [|split; reflexivity].
  destruct (read stream (NSFFileHeader.info_buffer_size fh)) as [dbd stream'].
  match goal with
  | |- context [NSFParser._build_application_model ?s filename clk1 k1] =>
      pose proof (build_without_dates s filename clk1 clk2 k1 k2) as Hb;
      destruct (NSFParser._build_application_model s filename clk1 k1) as [r1 k1'];
      destruct (NSFParser._build_application_model s filename clk2 k2) as [r2 k2']
  end.
  cbn [fst snd] in *.
  destruct r1 as [a1|e1], r2 as [a2|e2]; cbn [fst snd] in *;
    try discriminate Hb; split; try reflexivity; try exact Hb.
  cbn [result_without_dates] in Hb |- *. congruence.
Qed.

(** C5 as stated fails: the same bytes under the same name give two
    different models when the clock shows 0 during one run and 1 during
    the other. *)
Lemma parse_deterministic_counterexample :
  let content := file_header_bytes 43 0 1 (repeat x00 14) in
  snd (fst (NSFParser.parse_file NSFParser.__init__ content (lit "a.nsf")
              (fun _ => 0) 0%nat))
  <> snd (fst (NSFParser.parse_file NSFParser.__init__ content (lit "a.nsf")
                 (fun _ => 1) 0%nat)).
Proof.
  vm_compute. intros H. discriminate H.
Qed.

(** ** NoteClassifier *)

Lemma startswith_app (p b : str) : startswith (p ++ b) p = true.
Proof.
  induction p as [|x p IH]; [destruct b; reflexivity|].
  cbn [app startswith]. now rewrite Z.eqb_refl, IH.
Qed.

Lemma startswith_inv (s p : str) :
  startswith s p = true -> exists b, s = p ++ b.
Proof.
  revert s. induction p as [|x p IH]; intros s H.
  - exists s. reflexivity.
  - destruct s as [|y s]; [discriminate|]. cbn [startswith] in H.
    apply andb_true_iff in H. destruct H as [Hxy Hs].
    apply Z.eqb_eq in Hxy. subst y.
    destruct (IH s Hs) as [b ->]. exists b. reflexivity.
Qed.

Lemma contains_unfold (s p : str) :
  contains s p
  = (startswith s p || match s with [] => false | _ :: s' => contains s' p end).
Proof. destruct s; reflexivity. Qed.

Lemma contains_app (a b p : str) : contains (a ++ p ++ b) p = true.
Proof.
  induction a as [|x a IH].
  - cbn [app]. rewrite contains_unfold, startswith_app. reflexivity.
  - cbn [app]. rewrite contains_unfold. cbn [app] in IH. rewrite IH.
    apply orb_true_r.
Qed.

Lemma contains_inv (s p : str) :
  contains s p = true -> exists a b, s = a ++ p ++ b.
Proof.
  induction s as [|x s IH]; rewrite contains_unfold; intros H;
    apply orb_true_iff in H; destruct H as [H|H].
  - apply startswith_inv in H. destruct H as [b ->]. exists [], b. reflexivity.
  - discriminate.
  - apply startswith_inv in H. destruct H as [b ->]. exists [], b. reflexivity.
  - destruct (IH H) as (a & b & ->). exists (x :: a), b. reflexivity.
Qed.

Lemma contains_inside (a s b p : str) :
  contains s p = true -> contains (a ++ s ++ b) p = true.
Proof.
  intros H. destruct (contains_inv s p H) as (a' & b' & ->).
  replace (a ++ (a' ++ p ++ b') ++ b) with ((a ++ a') ++ p ++ (b' ++ b))
    by (rewrite <- !app_assoc; reflexivity).
  apply contains_app.
Qed.

Lemma lower_app (a b : str) : lower (a ++ b) = lower a ++ lower b.
Proof. apply map_app. Qed.

Lemma lower_char_letter (x l : Z) :
  lower_char x = l -> 97 <= l <= 122 -> (65 <= x <= 90 \/ 97 <= x <= 122).
Proof.
  unfold lower_char.
  destruct (Z.leb_spec 65 x), (Z.leb_spec x 90); cbn [andb]; lia.
Qed.

Lemma repr_byte_letter (quote x : Z) :
  quote = 34 \/ quote = 39 -> (65 <= x <= 90 \/ 97 <= x <= 122) ->
  repr_byte quote x = [x].
Proof.
  intros Hq Hx. unfold repr_byte.
  destruct (Z.eqb_spec x quote); [lia|].
  destruct (Z.eqb_spec x 92); [lia|]. cbn [orb].
  destruct (Z.eqb_spec x 9); [lia|].
  destruct (Z.eqb_spec x 10); [lia|].
  destruct (Z.eqb_spec x 13); [lia|].
  destruct (Z.ltb_spec x 32); [lia|].
  destruct (Z.leb_spec 127 x); [lia|]. reflexivity.
Qed.

Lemma repr_bytes_mentions_form (v : bytes) :
  mentions_form v = true ->
  contains (lower (repr_bytes v)) (lit "form") = true.
Proof.
  unfold mentions_form. intros H.
  destruct (contains_inv _ _ H) as (a & b & E).
  unfold lower in E. rewrite map_map in E.
  apply map_eq_app in E. destruct E as (va & v' & -> & Ha & E).
  apply map_eq_app in E. destruct E as (w & vb & -> & Hw & Hb).
  unfold repr_bytes. cbv zeta.
  match goal with
  | |- context [if ?c then 34 else 39] => set (quote := if c then 34 else 39)
  end.
  assert (Hq : quote = 34 \/ quote = 39).
  { unfold quote. match goal with |- context [if ?c then _ else _] => destruct c end; auto. }
  clearbody quote.
  assert (Ew : flat_map (fun c => repr_byte quote (ord c)) w = map ord w).
  { destruct w as [|c1 [|c2 [|c3 [|c4 [|c5 w]]]]]; try discriminate Hw.
    cbn [map] in Hw. change (lit "form") with [102; 111; 114; 109] in Hw.
    injection Hw as H1 H2 H3 H4.
    cbn [flat_map map app].
    rewrite !repr_byte_letter; auto; eapply lower_char_letter; eauto; lia. }
  rewrite !flat_map_app, Ew, !lower_app.
  assert (El : lower (map ord w) = lit "form").
  { unfold lower. rewrite map_map. exact Hw. }
  rewrite El.
  replace (lower [98; quote] ++
           (lower (flat_map (fun c => repr_byte quote (ord c)) va) ++
            lit "form" ++
            lower (flat_map (fun c => repr_byte quote (ord c)) vb)) ++
           lower [quote])
    with ((lower [98; quote]
             ++ lower (flat_map (fun c => repr_byte quote (ord c)) va))
          ++ lit "form"
          ++ (lower (flat_map (fun c => repr_byte quote (ord c)) vb)
                ++ lower [quote]))
    by (rewrite <- !app_assoc; reflexivity).
  apply contains_app.
Qed.

Lemma repr_entries_holds_value (d : dict bytes) (k : str) (v : bytes) :
  In (k, v) d -> exists a b, repr_entries d = a ++ repr_bytes v ++ b.
Proof.
  induction d as [|[k' v'] d IH]; [contradiction|].
  intros [H|H].
  - injection H as -> ->. destruct d as [|e d].
    + exists (repr_key k ++ lit ": "), []. cbn [repr_entries].
      rewrite app_nil_r, <- app_assoc. reflexivity.
    + exists (repr_key k ++ lit ": "), (lit ", " ++ repr_entries (e :: d)).
      cbn [repr_entries]. destruct e. rewrite <- !app_assoc. reflexivity.
  - destruct (IH H) as (a & b & E). destruct d as [|e d]; [contradiction|].
    exists (repr_key k' ++ lit ": " ++ repr_bytes v' ++ lit ", " ++ a), b.
    change (repr_entries ((k', v') :: e :: d))
      with (repr_key k' ++ lit ": " ++ repr_bytes v' ++ lit ", "
            ++ repr_entries (e :: d)).
    rewrite E, <- !app_assoc. reflexivity.
Qed.

Lemma repr_dict_mentions_form (d : dict bytes) (k : str) (v : bytes) :
  In (k, v) d -> mentions_form v = true ->
  contains (lower (repr_dict d)) (lit "form") = true.
Proof.
  intros Hin Hv. destruct (repr_entries_holds_value d k v Hin) as (a & b & E).
  unfold repr_dict. rewrite E, !lower_app.
  replace (lower (lit "{") ++ (lower a ++ lower (repr_bytes v) ++ lower b)
           ++ lower (lit "}"))
    with ((lower (lit "{") ++ lower a) ++ lower (repr_bytes v)
          ++ (lower b ++ lower (lit "}")))
    by (rewrite <- !app_assoc; reflexivity).
  apply contains_inside, repr_bytes_mentions_form, Hv.
Qed.

(** C6, as the code has it.  A note of class 1024 is given the role
    Form whenever the lower-cased text of its item mapping, as [str]
    prints the mapping, contains "form", whether or not it also contains
    "view"; this is the case whenever the raw bytes of some stored item
    spell "form" in any letter case.  A note of class 512 is given the
    role Document whatever its items hold. *)
Theorem classifier_form_priority (note : NSFNote.t) :
  (NSFNote.note_class note = 1024 ->
   contains (lower (repr_dict (NSFNote.items note))) (lit "form") = true ->
   classify note = Form)
  /\ (NSFNote.note_class note = 1024 ->
      (exists k v, In (k, v) (NSFNote.items note) /\ mentions_form v = true) ->
      classify note = Form)
  /\ (NSFNote.note_class note = 512 -> classify note = Document).
Proof.
  assert (Hform : NSFNote.note_class note = 1024 ->
            contains (lower (repr_dict (NSFNote.items note))) (lit "form") = true ->
            classify note = Form).
  { intros Hc Hf. unfold classify, NSFParser._is_form_note.
    now rewrite Hc, Hf. }
  repeat split.
  - exact Hform.
  - intros Hc (k & v & Hin & Hv). apply Hform; [exact Hc|].
    eapply repr_dict_mentions_form; eauto.
  - intros Hc. unfold classify, NSFParser._is_form_note, NSFParser._is_view_note,
      NSFParser._is_document_note.
    now rewrite Hc.
Qed.

Lemma classifier_form_priority_witness :
  classify (NSFNote.__init__ 1 1024
              (encode_items [(1, [x56; x69; x65; x77; x46; x6f; x72; x6d])]))
  = Form.
Proof.
  apply (proj1 (classifier_form_priority
           (NSFNote.__init__ 1 1024
              (encode_items [(1, [x56; x69; x65; x77; x46; x6f; x72; x6d])]))));
    vm_compute; reflexivity.
Defined.

(** C6 as stated fails: a note of class 1024 whose only item holds
    FF "fo" FF "rm" decodes to the text "form", since the decoder drops
    the two stray bytes, while the printed mapping shows them as \xff
    between "fo" and "rm"; the note is given no role. *)
Lemma classifier_form_priority_counterexample :
  let note := NSFNote.__init__ 1 1024
                [x01; x00; x06; x00; xff; x66; x6f; xff; x72; x6d] in
  NSFNote.note_class note = 1024
  /\ NSFNote.items note = [(NSFNote.item_key 1, [xff; x66; x6f; xff; x72; x6d])]
  /\ spec_dump (NSFNote.items note) = lit "form"
  /\ spec_is_form note = true
  /\ classify note = Unknown
  /\ classify note <> Form.
Proof.
  repeat split. vm_compute. discriminate.
Qed.

(** * Further properties of the parser *)

(** ** The note scan, turn by turn *)

Lemma firstn4_skipn (n : nat) (data : bytes) :
  (n + 4 <= length data)%nat ->
  firstn 4 (skipn n data)
  = [nth n data x00; nth (S n) data x00; nth (S (S n)) data x00;
     nth (S (S (S n))) data x00].
Proof.
  revert data. induction n as [|n IH]; intros data H.
  - destruct data as [|a [|b [|c [|d r]]]]; simpl in H; try lia. reflexivity.
  - destruct data as [|a r]; simpl in H; try lia.
    simpl skipn. rewrite IH by lia. reflexivity.
Qed.

Lemma unpack_L_at (data : bytes) (offset : Z) :
  0 <= offset -> offset + 4 <= len data ->
  unpack_L (slice data offset (offset + 4)) = Ok (u32_at data offset).
Proof.
  intros H0 H1. unfold slice, len in *.
  replace (Z.to_nat (offset + 4 - offset)) with 4%nat by lia.
  rewrite firstn4_skipn by lia. reflexivity.
Qed.

Lemma u32_at_range (data : bytes) (offset : Z) :
  0 <= u32_at data offset < 4294967296.
Proof.
  unfold u32_at.
  pose proof (ord_range (nth (Z.to_nat offset) data x00)).
  pose proof (ord_range (nth (S (Z.to_nat offset)) data x00)).
  pose proof (ord_range (nth (S (S (Z.to_nat offset))) data x00)).
  pose proof (ord_range (nth (S (S (S (Z.to_nat offset)))) data x00)). lia.
Qed.

Lemma slice_firstn (data : bytes) (n : nat) (a b : Z) :
  0 <= a -> b <= Z.of_nat n -> slice (firstn n data) a b = slice data a b.
Proof.
  intros Ha Hb. unfold slice.
  rewrite skipn_firstn_comm, firstn_firstn. f_equal. lia.
Qed.

Lemma parse_notes_loop_step (fuel : nat) (stream : bytes)
    (notes : list NSFNote.t) (note_id : Z) :
  NSFParser._parse_notes_loop (S fuel) stream notes note_id =
  if len stream <? 16 then notes
  else
    let note_class := u16_at stream 0 in
    let note_length := u32_at stream 4 in
    if (note_length =? 0) || (1024 * 1024 <? note_length) then notes
    else if len stream <? 16 + note_length then notes
    else
      let note := NSFNote.__init__ note_id note_class
                    (slice stream 16 (16 + note_length)) in
      if 100 <? len (notes ++ [note]) then notes ++ [note]
      else NSFParser._parse_notes_loop fuel
             (skipn (Z.to_nat (16 + note_length)) stream)
             (notes ++ [note]) (note_id + 1).
Proof.
  cbn [NSFParser._parse_notes_loop]. unfold read.
  assert (E16 : len (firstn (Z.to_nat 16) stream) = Z.min 16 (len stream)).
  { unfold len. rewrite length_firstn. lia. }
  rewrite E16.
  destruct (Z.ltb_spec (len stream) 16) as [Hs|Hl].
  - destruct (Z.ltb_spec (Z.min 16 (len stream)) 16); [reflexivity|lia].
  - destruct (Z.ltb_spec (Z.min 16 (len stream)) 16); [lia|].
    rewrite !slice_firstn by lia.
    change 2 with (0 + 2). rewrite unpack_H_at by lia.
    change 8 with (4 + 4). rewrite unpack_L_at by lia.
    cbv zeta. pose proof (u32_at_range stream 4) as Hr.
    destruct ((u32_at stream 4 =? 0) || (1024 * 1024 <? u32_at stream 4)) eqn:Eb;
      [reflexivity|].
    apply orb_false_iff in Eb. destruct Eb as [Ez _]. apply Z.eqb_neq in Ez.
    assert (En : len (firstn (Z.to_nat (u32_at stream 4))
                         (skipn (Z.to_nat 16) stream))
                 = Z.min (u32_at stream 4) (len stream - 16)).
    { unfold len in *. rewrite length_firstn, length_skipn. lia. }
    rewrite En.
    replace (firstn (Z.to_nat (u32_at stream 4)) (skipn (Z.to_nat 16) stream))
      with (slice stream 16 (16 + u32_at stream 4))
      by (unfold slice; f_equal; lia).
    destruct (Z.ltb_spec (len stream) (16 + u32_at stream 4)).
    + destruct (Z.ltb_spec (Z.min (u32_at stream 4) (len stream - 16))
                           (u32_at stream 4)); [reflexivity|lia].
    + destruct (Z.ltb_spec (Z.min (u32_at stream 4) (len stream - 16))
                           (u32_at stream 4)); [lia|].
      rewrite skipn_skipn.
      replace (Z.to_nat (u32_at stream 4) + Z.to_nat 16)%nat
        with (Z.to_nat (16 + u32_at stream 4)) by lia.
      reflexivity.
Qed.

Lemma u32_pack (v : Z) :
  0 <= v < 4294967296 ->
  ord (byte_of_Z (v mod 256)) + 256 * ord (byte_of_Z (v / 256 mod 256))
  + 65536 * ord (byte_of_Z (v / 65536 mod 256))
  + 16777216 * ord (byte_of_Z (v / 16777216)) = v.
Proof.
  intros Hv.
  replace (v / 65536) with (v / 256 / 256)
    by (rewrite Z.div_div by lia; reflexivity).
  replace (v / 16777216) with (v / 256 / 256 / 256)
    by (rewrite !Z.div_div by lia; reflexivity).
  pose proof (Z.div_mod v 256 ltac:(lia)).
  pose proof (Z.div_mod (v / 256) 256 ltac:(lia)).
  pose proof (Z.div_mod (v / 256 / 256) 256 ltac:(lia)).
  pose proof (Z.mod_pos_bound v 256 ltac:(lia)).
  pose proof (Z.mod_pos_bound (v / 256) 256 ltac:(lia)).
  pose proof (Z.mod_pos_bound (v / 256 / 256) 256 ltac:(lia)).
  assert (0 <= v / 256 / 256 / 256 < 256).
  { split; [repeat apply Z.div_pos; lia|].
    repeat (apply Z.div_lt_upper_bound; [lia|]). lia. }
  rewrite !ord_byte_of_Z by lia. lia.
Qed.

Lemma len_frame (c : Z) (p : bytes) : len (frame c p) = 16 + len p.
Proof.
  unfold frame, pack_H, pack_L. rewrite !len_app.
  change (len (repeat x00 8)) with 8. unfold len at 1 2 3.
  cbn [length]. lia.
Qed.

Lemma frame_fields (c : Z) (p rest : bytes) :
  0 <= c < 65536 -> 0 <= len p < 4294967296 ->
  u16_at (frame c p ++ rest) 0 = c
  /\ u32_at (frame c p ++ rest) 4 = len p
  /\ slice (frame c p ++ rest) 16 (16 + len p) = p
  /\ skipn (Z.to_nat (16 + len p)) (frame c p ++ rest) = rest.
Proof.
  intros Hc Hp. unfold frame, pack_H, pack_L, u16_at, u32_at.
  change (Z.to_nat 0) with 0%nat. change (Z.to_nat 4) with 4%nat.
  cbn [app nth repeat]. rewrite u16_pack, u32_pack by assumption.
  repeat split.
  - unfold slice. replace (Z.to_nat (16 + len p - 16)) with (length p)
      by (unfold len; lia).
    change (Z.to_nat 16) with 16%nat. cbn [skipn].
    rewrite firstn_app, Nat.sub_diag, firstn_all. cbn [firstn]. apply app_nil_r.
  - replace (Z.to_nat (16 + len p)) with (16 + length p)%nat by (unfold len; lia).
    cbn [Nat.add skipn].
    rewrite skipn_app, skipn_all, Nat.sub_diag. reflexivity.
Qed.

Lemma parse_notes_loop_frames (fs : list (Z * bytes)) :
  Forall well_formed_frame fs ->
  forall (tail : bytes) (notes : list NSFNote.t) (note_id : Z) (fuel : nat),
  ends_scan tail -> len notes <= 100 ->
  (length (encode_frames fs ++ tail) < fuel)%nat ->
  NSFParser._parse_notes_loop fuel (encode_frames fs ++ tail) notes note_id
  = notes ++ firstn (Z.to_nat (101 - len notes)) (notes_of note_id fs).
Proof.
  induction 1 as [|[c p] fs [Hc Hp] _ IH];
    intros tail notes note_id fuel Htail Hn Hfuel;
    (destruct fuel as [|fuel]; [lia|]); rewrite parse_notes_loop_step.
  - cbn [encode_frames flat_map app notes_of]. rewrite firstn_nil, app_nil_r.
    destruct (Z.ltb_spec (len tail) 16); [reflexivity|]. cbv zeta.
    destruct (Z.eqb_spec (u32_at tail 4) 0); [reflexivity|]. cbn [orb].
    destruct (Z.ltb_spec (1024 * 1024) (u32_at tail 4)); [reflexivity|].
    destruct (Z.ltb_spec (len tail) (16 + u32_at tail 4)); [reflexivity|].
    unfold ends_scan in Htail. lia.
  - cbn [fst snd] in Hc, Hp.
    cbn [encode_frames flat_map fst snd notes_of] in *. fold (encode_frames fs) in *.
    rewrite <- app_assoc in *.
    set (rest := encode_frames fs ++ tail) in *.
    destruct (frame_fields c p rest) as (E0 & E4 & Es & Ek); [lia|lia|].
    rewrite len_app, len_frame.
    pose proof (len_nonneg rest).
    destruct (Z.ltb_spec (16 + len p + len rest) 16); [lia|]. cbv zeta.
    rewrite E0, E4, Es, Ek.
    destruct (Z.eqb_spec (len p) 0); [lia|]. cbn [orb].
    destruct (Z.ltb_spec (1024 * 1024) (len p)); [lia|].
    destruct (Z.ltb_spec (16 + len p + len rest) (16 + len p)); [lia|].
    rewrite len_app. unfold len at 2. cbn [length].
    replace (Z.to_nat (101 - len notes)) with (S (Z.to_nat (100 - len notes)))
      by (pose proof (len_nonneg notes); lia).
    cbn [firstn].
    destruct (Z.ltb_spec 100 (len notes + Z.of_nat 1)).
    + replace (Z.to_nat (100 - len notes)) with 0%nat by lia. reflexivity.
    + assert (Hrest : (length rest < fuel)%nat).
      { rewrite length_app in Hfuel.
        pose proof (len_frame c p) as Lf. unfold len in Lf. lia. }
      unfold rest in *. rewrite IH; try assumption.
      * rewrite len_app. unfold len at 2. cbn [length].
        rewrite <- app_assoc. cbn [app]. do 3 f_equal. lia.
      * rewrite len_app. unfold len at 2. cbn [length]. lia.
Qed.

(** Well-formed frames followed by bytes on which the scan stops: a
    fresh parser keeps the first 101 frames, in order, numbered from 1,
    each with its class, its payload and the items of its payload. *)
Theorem note_scan_reads_frames (fs : list (Z * bytes)) (tail : bytes) :
  Forall well_formed_frame fs -> ends_scan tail ->
  NSFParser._parse_notes NSFParser.__init__ (encode_frames fs ++ tail)
  = firstn 101 (notes_of 1 fs).
Proof.
  intros Hfs Htail. unfold NSFParser._parse_notes.
  cbn [NSFParser.notes NSFParser.__init__].
  rewrite (parse_notes_loop_frames fs Hfs tail);
    [reflexivity | assumption | unfold len; cbn [length]; lia | lia].
Qed.

Lemma note_scan_reads_frames_witness :
  NSFParser._parse_notes NSFParser.__init__
    (encode_frames [(1024, [x61; x62]); (512, [x63])] ++ [x00; x01; x02])
  = firstn 101 (notes_of 1 [(1024, [x61; x62]); (512, [x63])]).
Proof.
  apply (note_scan_reads_frames [(1024, [x61; x62]); (512, [x63])] [x00; x01; x02]).
  - repeat constructor; vm_compute; congruence.
  - left. vm_compute. reflexivity.
Defined.

Lemma ids_from_S (first : Z) (k : nat) :
  ids_from first (S k) = first :: ids_from (first + 1) k.
Proof.
  unfold ids_from. cbn [seq map]. f_equal; [lia|].
  rewrite <- seq_shift, map_map. apply map_ext. intros i. lia.
Qed.

Lemma parse_notes_loop_appends (fuel : nat) (stream : bytes)
    (notes : list NSFNote.t) (note_id : Z) :
  exists new,
    NSFParser._parse_notes_loop fuel stream notes note_id = notes ++ new
    /\ map NSFNote.note_id new = ids_from note_id (length new)
    /\ Forall scanned_note new
    /\ (length new <= Nat.max 1 (101 - length notes))%nat
    /\ len (flat_map NSFNote.data new) + 16 * len new <= len stream.
Proof.
  revert stream notes note_id.
  assert (Hnil : forall (stream : bytes) (notes : list NSFNote.t) (note_id : Z),
            exists new : list NSFNote.t,
              notes = notes ++ new
              /\ map NSFNote.note_id new = ids_from note_id (length new)
              /\ Forall scanned_note new
              /\ (length new <= Nat.max 1 (101 - length notes))%nat
              /\ len (flat_map NSFNote.data new) + 16 * len new <= len stream).
  { intros stream notes note_id. exists []. rewrite app_nil_r.
    repeat split; try constructor; try (cbn; lia).
    cbn. pose proof (len_nonneg stream). unfold len in *. cbn [length]. lia. }
  induction fuel as [|fuel IH]; intros stream notes note_id; [apply Hnil|].
  rewrite parse_notes_loop_step.
  destruct (Z.ltb_spec (len stream) 16); [apply Hnil|]. cbv zeta.
  destruct (Z.eqb_spec (u32_at stream 4) 0); [apply Hnil|]. cbn [orb].
  destruct (Z.ltb_spec (1024 * 1024) (u32_at stream 4)); [apply Hnil|].
  destruct (Z.ltb_spec (len stream) (16 + u32_at stream 4)); [apply Hnil|].
  pose proof (u32_at_range stream 4) as Hr.
  set (note := NSFNote.__init__ note_id (u16_at stream 0)
                 (slice stream 16 (16 + u32_at stream 4))).
  assert (Hdata : len (NSFNote.data note) = u32_at stream 4).
  { unfold note. cbn [NSFNote.data NSFNote.__init__].
    rewrite slice_length; lia. }
  assert (Hnote : scanned_note note).
  { unfold scanned_note. rewrite Hdata. repeat split; try lia.
    - apply u16_at_range.
    - apply u16_at_range. }
  destruct (Z.ltb_spec 100 (len (notes ++ [note]))) as [Hcap|Hcap].
  - exists [note]. split; [reflexivity|]. split.
    { unfold ids_from. cbn [map length seq NSFNote.note_id note NSFNote.__init__].
      f_equal. lia. }
    split; [constructor; [exact Hnote|constructor]|]. split; [cbn [length]; lia|].
    cbn [flat_map]. rewrite app_nil_r, Hdata. unfold len at 1. cbn [length]. lia.
  - destruct (IH (skipn (Z.to_nat (16 + u32_at stream 4)) stream)
                 (notes ++ [note]) (note_id + 1))
      as (new & E & Hids & Hall & Hlen & Hbytes).
    exists (note :: new). rewrite E, <- app_assoc.
    split; [reflexivity|]. split; [|split; [|split]].
    + cbn [map length]. rewrite ids_from_S, Hids. reflexivity.
    + constructor; assumption.
    + rewrite len_app in Hcap. unfold len in Hcap. rewrite length_app in Hlen.
      cbn [length] in *. lia.
    + cbn [flat_map]. rewrite len_app, Hdata, len_cons.
      clear Hdata. unfold len in *. rewrite length_skipn in Hbytes. lia.
Qed.

(** Whatever the stream and whatever the parser already holds, the note
    scan only appends: the notes held before stay in front, the new
    notes are numbered 1, 2, ... in order, each has a 16-bit class, a
    payload of 1 to 1,048,576 bytes and the items of its payload; a
    parser holding fewer than 100 notes ends with at most 101, one
    holding 100 or more takes at most one; and the new payloads with
    their 16-byte prefixes fit in the stream. *)
Theorem note_scan_appends (self : NSFParser.t) (stream : bytes) :
  exists new,
    NSFParser._parse_notes self stream = NSFParser.notes self ++ new
    /\ map NSFNote.note_id new = ids_from 1 (length new)
    /\ Forall scanned_note new
    /\ (length new <= Nat.max 1 (101 - length (NSFParser.notes self)))%nat
    /\ len (flat_map NSFNote.data new) + 16 * len new <= len stream.
Proof.
  apply parse_notes_loop_appends.
Qed.

(** ** The item scan: layout of what is scanned *)





(** ** The item mapping: keys and lookup *)

Lemma dict_get_none_iff {V} (d : dict V) (k : str) :
  dict_get d k = None <-> ~ In k (map fst d).
Proof.
  induction d as [|[k' v'] d IH]; cbn [dict_get map fst In]; [tauto|].
  destruct (str_eqb k' k) eqn:E.
  - apply str_eqb_eq in E. split; [discriminate|]. intros H. exfalso. auto.
  - rewrite IH. split; [|tauto]. intros H [Hk|Hk]; [|auto].
    subst k'. rewrite str_eqb_refl in E. discriminate.
Qed.

Lemma dict_set_keys {V} (d : dict V) (k : str) (v : V) :
  map fst (dict_set d k v)
  = match dict_get d k with
    | Some _ => map fst d
    | None => map fst d ++ [k]
    end.
Proof.
  induction d as [|[k' v'] d IH]; cbn [dict_set dict_get map fst app];
    [reflexivity|].
  destruct (str_eqb k' k); [reflexivity|].
  cbn [map fst]. rewrite IH. destruct (dict_get d k); reflexivity.
Qed.

Lemma NoDup_snoc {A} (l : list A) (x : A) :
  NoDup l -> ~ In x l -> NoDup (l ++ [x]).
Proof.
  induction 1 as [|y l Hy Hl IH]; intros Hx; cbn [app].
  - constructor; [intros []|constructor].
  - constructor.
    + rewrite in_app_iff. cbn [In]. intros [H|[H|[]]]; [auto|].
      subst. apply Hx. left. reflexivity.
    + apply IH. intros H. apply Hx. right. exact H.
Qed.

Lemma dict_set_NoDup {V} (d : dict V) (k : str) (v : V) :
  NoDup (map fst d) -> NoDup (map fst (dict_set d k v)).
Proof.
  intros H. rewrite dict_set_keys.
  destruct (dict_get d k) eqn:E; [exact H|].
  apply NoDup_snoc; [exact H|]. now apply dict_get_none_iff.
Qed.

Lemma store_NoDup (tr : list scanned_item) (d : dict bytes) :
  NoDup (map fst d) -> NoDup (map fst (fold_left store tr d)).
Proof.
  revert d. induction tr as [|it tr IH]; intros d H; cbn [fold_left]; [exact H|].
  apply IH. unfold store. now apply dict_set_NoDup.
Qed.

Lemma store_keys (tr : list scanned_item) (d : dict bytes) (k : str) :
  In k (map fst (fold_left store tr d)) ->
  In k (map fst d) \/ exists it, In it tr /\ k = NSFNote.item_key (item_type it).
Proof.
  revert d. induction tr as [|it tr IH]; intros d H; cbn [fold_left] in H;
    [left; exact H|].
  destruct (IH _ H) as [Hk|(it' & Hin & Hk)].
  - unfold store in Hk. rewrite dict_set_keys in Hk.
    destruct (dict_get d (NSFNote.item_key (item_type it))); [left; exact Hk|].
    apply in_app_iff in Hk. destruct Hk as [Hk|[Hk|[]]]; [left; exact Hk|].
    right. exists it. split; [left; reflexivity|congruence].
  - right. exists it'. split; [right; exact Hin|exact Hk].
Qed.

Lemma dict_get_in {V} (d : dict V) (k : str) (v : V) :
  NoDup (map fst d) -> In (k, v) d -> dict_get d k = Some v.
Proof.
  induction d as [|[k' v'] d IH]; cbn [map fst In dict_get]; [tauto|].
  intros Hnd [H|H].
  - injection H as -> ->. now rewrite str_eqb_refl.
  - inversion Hnd as [|? ? Hk' Hd]. subst.
    destruct (str_eqb k' k) eqn:E; [|auto].
    apply str_eqb_eq in E. subst k'. exfalso. apply Hk'.
    apply (in_map fst) in H. exact H.
Qed.

Lemma parse_items_lookup (data : bytes) (ty : Z) :
  0 <= ty ->
  dict_get (NSFNote._parse_items data) (NSFNote.item_key ty)
  = last_of_type ty (scanned_items data).
Proof.
  intros Hty. rewrite parse_items_trace, get_after_store; [reflexivity|exact Hty|].
  apply scan_trace_types.
Qed.

(** The mapping of any payload has pairwise distinct keys; each of its
    entries is the key of a scanned 16-bit type with the bytes of the
    last scanned item of that type; and it has no more entries than items
    were scanned. *)
Theorem item_mapping_keys (data : bytes) :
  NoDup (map fst (NSFNote._parse_items data))
  /\ Forall (fun kv => exists ty,
               0 <= ty < 65536 /\ fst kv = NSFNote.item_key ty
               /\ last_of_type ty (scanned_items data) = Some (snd kv))
            (NSFNote._parse_items data)
  /\ (length (NSFNote._parse_items data) <= length (scanned_items data))%nat.
Proof.
  assert (Hnd : NoDup (map fst (NSFNote._parse_items data))).
  { rewrite parse_items_trace. apply store_NoDup. constructor. }
  split; [exact Hnd|]. split.
  - apply Forall_forall. intros [k v] Hin. cbn [fst snd].
    assert (Hk : In k (map fst (NSFNote._parse_items data)))
      by (apply (in_map fst) in Hin; exact Hin).
    rewrite parse_items_trace in Hk.
    destruct (store_keys _ _ _ Hk) as [[]|(it & Hit & ->)].
    pose proof (scan_trace_types (S (length data)) data 0) as Ht.
    rewrite Forall_forall in Ht. specialize (Ht it Hit). cbn beta in Ht.
    exists (item_type it). split; [exact Ht|]. split; [reflexivity|].
    rewrite <- parse_items_lookup by lia. now apply dict_get_in.
  - rewrite parse_items_trace.
    apply (store_length_le (scanned_items data) []).
Qed.

Lemma starts_with_item (ty : Z) :
  startswith (NSFNote.item_key ty) (lit "item_") = true.
Proof. unfold NSFNote.item_key. apply startswith_app. Qed.

(** Looking an item up in a note the scan has built: under the key of a
    type, the decoded bytes of the last scanned item of that type, or
    nothing when the type was not scanned; under a name that does not
    start with "item_", nothing. *)
Theorem get_text_item_after_scan (note_id note_class : Z) (data : bytes) :
  (forall ty, 0 <= ty ->
     NSFNote.get_text_item (NSFNote.__init__ note_id note_class data)
                           (NSFNote.item_key ty)
     = option_map LMBCSDecoder.decode (last_of_type ty (scanned_items data)))
  /\ (forall item_name, startswith item_name (lit "item_") = false ->
        NSFNote.get_text_item (NSFNote.__init__ note_id note_class data) item_name
        = None).
Proof.
  unfold NSFNote.get_text_item. cbn [NSFNote.items NSFNote.__init__]. split.
  - intros ty Hty. rewrite parse_items_lookup by exact Hty.
    destruct (last_of_type ty (scanned_items data)); reflexivity.
  - intros item_name Hname.
    destruct (dict_get (NSFNote._parse_items data) item_name) as [v|] eqn:E;
      [|reflexivity].
    exfalso.
    assert (Hin : In item_name (map fst (NSFNote._parse_items data))).
    { destruct (in_dec (list_eq_dec Z.eq_dec) item_name
                  (map fst (NSFNote._parse_items data))) as [H|H]; [exact H|].
      apply dict_get_none_iff in H. congruence. }
    rewrite parse_items_trace in Hin.
    destruct (store_keys _ _ _ Hin) as [[]|(it & _ & ->)].
    rewrite starts_with_item in Hname. discriminate.
Qed.

Lemma get_text_item_after_scan_witness :
  NSFNote.get_text_item
    (NSFNote.__init__ 1 1024
       (encode_items [(7, [x46; x6f; x72; x6d]); (7, [x56; x69; x65; x77])]))
    (NSFNote.item_key 7)
  = Some (lit "View")
  /\ NSFNote.get_text_item
       (NSFNote.__init__ 1 1024
          (encode_items [(7, [x46; x6f; x72; x6d]); (7, [x56; x69; x65; x77])]))
       (lit "form_name")
     = None.
Proof.
  split.
  - apply (proj1 (get_text_item_after_scan 1 1024
       (encode_items [(7, [x46; x6f; x72; x6d]); (7, [x56; x69; x65; x77])])) 7).
    lia.
  - apply (proj2 (get_text_item_after_scan 1 1024
       (encode_items [(7, [x46; x6f; x72; x6d]); (7, [x56; x69; x65; x77])]))).
    reflexivity.
Defined.

(** ** The item scan: round trip *)

Lemma len_encode_items_pos (l : list (Z * bytes)) :
  Forall well_formed_item l -> l <> [] -> 5 <= len (encode_items l).
Proof.
  intros H Hne. destruct H as [|[ty p] l [_ Hp] _]; [contradiction|].
  cbn [encode_items flat_map fst snd] in *.
  rewrite len_app, len_encode_item.
  pose proof (len_nonneg (flat_map (fun it => encode_item (fst it) (snd it)) l)).
  lia.
Qed.

Lemma items_from_encoded_then (l : list (Z * bytes)) :
  Forall well_formed_item l ->
  forall (pre tail : bytes) (items : dict bytes),
  (forall pre' items', items_from (pre' ++ tail) (len pre') items' = items') ->
  (l <> [] -> 4 <= len (snd (last l (0, []))) + len tail) ->
  items_from (pre ++ encode_items l ++ tail) (len pre) items
  = fold_left (fun d it => dict_set d (NSFNote.item_key (fst it)) (snd it)) l items.
Proof.
  induction 1 as [|[ty payload] l [Hty Hp] Hl IH];
    intros pre tail items Hstop Hlast.
  - cbn [encode_items flat_map app fold_left]. apply Hstop.
  - cbn [fst snd] in Hty, Hp.
    cbn [encode_items flat_map fold_left fst snd]. fold (encode_items l).
    rewrite <- app_assoc.
    set (R := encode_items l ++ tail).
    assert (HR : 4 <= len payload + len R).
    { unfold R. rewrite len_app. destruct l as [|it' l'].
      - specialize (Hlast ltac:(discriminate)). cbn [last snd] in Hlast.
        cbn [encode_items flat_map]. unfold len at 2. cbn [length]. lia.
      - pose proof (len_encode_items_pos (it' :: l') Hl ltac:(discriminate)).
        pose proof (len_nonneg tail). lia. }
    rewrite items_from_step by apply len_nonneg.
    rewrite !len_app, len_encode_item.
    destruct (Z.ltb_spec (len pre + (4 + len payload + len R) - len pre) 8); [lia|].
    cbv zeta.
    destruct (u16_encode_item ty payload R) as (E0 & E2 & E4); [lia|lia|].
    pose proof (u16_at_app pre (encode_item ty payload ++ R) 0 (Z.le_refl 0)) as A0.
    rewrite Z.add_0_r, E0 in A0.
    rewrite A0, u16_at_app, E2 by lia.
    destruct (Z.eqb_spec (len payload) 0); [lia|]. cbn [orb].
    pose proof (len_nonneg R).
    destruct (Z.ltb_spec (len pre + (4 + len payload + len R)) (len pre + len payload));
      [lia|].
    replace (len pre + 4 + len payload) with (len pre + (4 + len payload)) by lia.
    rewrite slice_app by lia. rewrite E4.
    rewrite app_assoc. rewrite <- len_encode_item with (ty := ty), <- len_app.
    unfold R. apply IH; [exact Hstop|].
    intros Hne. destruct l as [|it' l']; [contradiction|].
    apply Hlast. discriminate.
Qed.

Lemma dict_set_new {V} (d : dict V) (k : str) (v : V) :
  dict_get d k = None -> dict_set d k v = d ++ [(k, v)].
Proof.
  induction d as [|[k' v'] d IH]; cbn [dict_get dict_set app]; [reflexivity|].
  destruct (str_eqb k' k); [discriminate|]. intros H. now rewrite IH.
Qed.

Lemma dict_get_app_new {V} (d : dict V) (k q : str) (v : V) :
  k <> q -> dict_get d q = None -> dict_get (d ++ [(k, v)]) q = None.
Proof.
  intros Hkq. induction d as [|[k' v'] d IH]; cbn [dict_get app].
  - now rewrite str_eqb_neq.
  - destruct (str_eqb k' q); [discriminate|exact IH].
Qed.

Lemma store_all_distinct (l : list (Z * bytes)) (acc : dict bytes) :
  Forall (fun it => 0 <= fst it) l -> NoDup (map fst l) ->
  (forall it, In it l -> dict_get acc (NSFNote.item_key (fst it)) = None) ->
  fold_left (fun d it => dict_set d (NSFNote.item_key (fst it)) (snd it)) l acc
  = acc ++ map item_entry l.
Proof.
  revert acc. induction l as [|[ty p] l IH]; intros acc Hpos Hnd Hacc;
    cbn [fold_left map fst snd].
  - now rewrite app_nil_r.
  - inversion Hpos as [|? ? Hty Hpos']. inversion Hnd as [|? ? Hnin Hnd']. subst.
    cbn [fst map] in *.
    rewrite dict_set_new by (apply (Hacc (ty, p)); left; reflexivity).
    rewrite IH; [rewrite <- app_assoc; reflexivity|assumption|assumption|].
    intros it Hit. apply dict_get_app_new; [|apply Hacc; right; exact Hit].
    intros Hk. rewrite Forall_forall in Hpos'.
    apply item_key_inj in Hk; [|exact Hty|apply Hpos', Hit].
    apply Hnin. rewrite Hk. apply in_map, Hit.
Qed.

(** Round trip of the item layout: well-formed items with pairwise
    distinct type codes, the last of them with at least 4 payload bytes,
    are read back from their encoding one entry each, in the same order,
    with exactly their bytes. *)
Theorem item_scan_round_trip (l : list (Z * bytes)) (it : Z * bytes) :
  Forall well_formed_item (l ++ [it]) ->
  NoDup (map fst (l ++ [it])) ->
  4 <= len (snd it) ->
  NSFNote._parse_items (encode_items (l ++ [it])) = map item_entry (l ++ [it]).
Proof.
  intros Hwf Hnd Hlast. rewrite parse_items_from_0.
  pose proof (items_from_encoded_then (l ++ [it]) Hwf [] [] []) as H.
  rewrite app_nil_r in H. cbn [app] in H.
  change (len (@nil byte)) with 0 in H. rewrite H.
  - apply (store_all_distinct (l ++ [it]) []); [|exact Hnd|reflexivity].
    eapply Forall_impl; [|exact Hwf]. intros x [Hx _]. lia.
  - intros pre' items'. rewrite app_nil_r.
    rewrite items_from_step by apply len_nonneg.
    destruct (Z.ltb_spec (len pre' - len pre') 8); [reflexivity|lia].
  - intros _. rewrite last_last. lia.
Qed.

Lemma item_scan_round_trip_witness :
  NSFNote._parse_items
    (encode_items ([(1, [x61])] ++ [(2, [x62; x63; x64; x65])]))
  = map item_entry ([(1, [x61])] ++ [(2, [x62; x63; x64; x65])]).
Proof.
  apply (item_scan_round_trip [(1, [x61])] (2, [x62; x63; x64; x65])).
  - repeat constructor; vm_compute; congruence.
  - repeat constructor; cbn; intuition congruence.
  - vm_compute. congruence.
Defined.

(** The last item of a payload is lost when it has fewer than 4 payload
    bytes: the scan wants 8 bytes from a prefix on, so it stops in front
    of such an item and keeps the items before it. *)
Theorem short_last_item_is_dropped (l : list (Z * bytes)) (it : Z * bytes) :
  Forall well_formed_item l -> well_formed_item it -> len (snd it) < 4 ->
  NSFNote._parse_items (encode_items (l ++ [it])) = store_all l.
Proof.
  intros Hl [Hty Hp] Hshort. rewrite parse_items_from_0.
  unfold encode_items. rewrite flat_map_app. cbn [flat_map]. rewrite app_nil_r.
  apply (items_from_encoded l Hl [] (encode_item (fst it) (snd it)) []).
  rewrite len_encode_item. lia.
Qed.

Lemma short_last_item_is_dropped_witness :
  NSFNote._parse_items
    (encode_items ([(1, [x61; x62; x63; x64])] ++ [(2, [x65; x66; x67])]))
  = store_all [(1, [x61; x62; x63; x64])].
Proof.
  apply (short_last_item_is_dropped [(1, [x61; x62; x63; x64])] (2, [x65; x66; x67])).
  - repeat constructor; vm_compute; congruence.
  - split; vm_compute; split; congruence.
  - vm_compute. reflexivity.
Defined.

(** ** Roles *)

(** The role of a note by its class: Document exactly for class 512;
    Unknown for every class other than 1024 and 512; Form or View only
    for a note of class 1024 that has at least one stored item. *)
Theorem classify_by_class (note : NSFNote.t) :
  (classify note = Document <-> NSFNote.note_class note = 512)
  /\ (NSFNote.note_class note <> 1024 -> NSFNote.note_class note <> 512 ->
      classify note = Unknown)
  /\ (classify note = Form \/ classify note = View ->
      NSFNote.note_class note = 1024 /\ NSFNote.items note <> []).
Proof.
  unfold classify, NSFParser._is_form_note, NSFParser._is_view_note,
    NSFParser._is_document_note.
  destruct (Z.eqb_spec (NSFNote.note_class note) 1024) as [E|E];
    destruct (Z.eqb_spec (NSFNote.note_class note) 512) as [E'|E'];
    destruct (contains (lower (repr_dict (NSFNote.items note))) (lit "form")) eqn:Ef;
    destruct (contains (lower (repr_dict (NSFNote.items note))) (lit "view")) eqn:Ev;
    cbn [andb]; try lia;
    (split; [split; [intros D; try discriminate D; try lia | intros D; try lia; try reflexivity]|]);
    (split; [intros N1 N2; try lia; try reflexivity|]);
    (intros [D|D]; try discriminate D; (split; [exact E|]));
    intros Hnil; rewrite Hnil in Ef, Ev; vm_compute in Ef, Ev; discriminate.
Qed.

Lemma classify_by_class_witness :
  classify (NSFNote.__init__ 3 7 [x01; x00; x04; x00; x66; x6f; x72; x6d])
  = Unknown.
Proof.
  apply (proj1 (proj2 (classify_by_class
           (NSFNote.__init__ 3 7 [x01; x00; x04; x00; x66; x6f; x72; x6d]))));
    vm_compute; congruence.
Defined.

(** ** The model that is built *)

Lemma parse_items_foreign_key (data : bytes) (item_name : str) :
  startswith item_name (lit "item_") = false ->
  dict_get (NSFNote._parse_items data) item_name = None.
Proof.
  intros Hname.
  destruct (dict_get (NSFNote._parse_items data) item_name) as [v|] eqn:E;
    [|reflexivity].
  exfalso.
  assert (Hin : In item_name (map fst (NSFNote._parse_items data))).
  { destruct (in_dec (list_eq_dec Z.eq_dec) item_name
                (map fst (NSFNote._parse_items data))) as [H|H]; [exact H|].
    apply dict_get_none_iff in H. congruence. }
  rewrite parse_items_trace in Hin.
  destruct (store_keys _ _ _ Hin) as [[]|(it & _ & ->)].
  rewrite starts_with_item in Hname. discriminate.
Qed.

Lemma add_form_fields (app : ApplicationModel.t) (f : FormModel.t) :
  NSFParser.add_form app f
  = ApplicationModel.Build
      (ApplicationModel.id app) (ApplicationModel.name app)
      (ApplicationModel.description app) (ApplicationModel.created_date app)
      (ApplicationModel.modified_date app)
      (ApplicationModel.forms app ++ [f]) (ApplicationModel.views app)
      (ApplicationModel.documents app).
Proof. destruct app. reflexivity. Qed.

Lemma add_view_fields (app : ApplicationModel.t) (v : ViewModel.t) :
  NSFParser.add_view app v
  = ApplicationModel.Build
      (ApplicationModel.id app) (ApplicationModel.name app)
      (ApplicationModel.description app) (ApplicationModel.created_date app)
      (ApplicationModel.modified_date app)
      (ApplicationModel.forms app) (ApplicationModel.views app ++ [v])
      (ApplicationModel.documents app).
Proof. destruct app. reflexivity. Qed.

Lemma add_document_fields (app : ApplicationModel.t) (d : DocumentModel.t) :
  NSFParser.add_document app d
  = ApplicationModel.Build
      (ApplicationModel.id app) (ApplicationModel.name app)
      (ApplicationModel.description app) (ApplicationModel.created_date app)
      (ApplicationModel.modified_date app)
      (ApplicationModel.forms app) (ApplicationModel.views app)
      (ApplicationModel.documents app ++ [d]).
Proof. destruct app. reflexivity. Qed.

(** The part of a model that no visit of a note changes. *)
Lemma visit_notes_header (notes : list NSFNote.t) (app : ApplicationModel.t)
    (clk : clock) (k : nat) :
  let app' := fst (NSFParser.visit_notes notes app clk k) in
  ApplicationModel.id app' = ApplicationModel.id app
  /\ ApplicationModel.name app' = ApplicationModel.name app
  /\ ApplicationModel.description app' = ApplicationModel.description app
  /\ ApplicationModel.created_date app' = ApplicationModel.created_date app
  /\ ApplicationModel.modified_date app' = ApplicationModel.modified_date app.
Proof.
  revert app k. induction notes as [|note notes IH]; intros app k.
  - cbn. auto.
  - cbn [NSFParser.visit_notes]. unfold bind.
    destruct (NSFParser.visit_note note app clk k) as [app1 k1] eqn:E.
    specialize (IH app1 k1). cbv zeta in IH |- *.
    assert (H1 : ApplicationModel.id app1 = ApplicationModel.id app
                 /\ ApplicationModel.name app1 = ApplicationModel.name app
                 /\ ApplicationModel.description app1 = ApplicationModel.description app
                 /\ ApplicationModel.created_date app1 = ApplicationModel.created_date app
                 /\ ApplicationModel.modified_date app1
                    = ApplicationModel.modified_date app).
    { unfold NSFParser.visit_note in E.
      destruct (NSFParser._is_form_note note).
      { cbn in E. injection E as <- _. rewrite add_form_fields. cbn. auto. }
      destruct (NSFParser._is_view_note note).
      { cbn in E. injection E as <- _. rewrite add_view_fields. cbn. auto. }
      destruct (NSFParser._is_document_note note).
      { cbn in E. injection E as <- _. rewrite add_document_fields. cbn. auto. }
      cbn in E. injection E as <- _. auto. }
    destruct IH as (I1 & I2 & I3 & I4 & I5).
    destruct H1 as (J1 & J2 & J3 & J4 & J5).
    repeat split; congruence.
Qed.

Lemma build_succeeds (self : NSFParser.t) (filename : str)
    (clk : clock) (k : nat) (dbh : NSFDatabaseHeader.t) :
  NSFParser.db_header self = Some dbh ->
  exists app k',
    NSFParser._build_application_model self filename clk k = (Ok app, k')
    /\ ApplicationModel.id app = filename
    /\ ApplicationModel.name app
       = match NSFDatabaseHeader.title dbh with
         | [] => filename
         | _ => NSFDatabaseHeader.title dbh
         end
    /\ ApplicationModel.description app = Some (lit "Converted from " ++ filename)
    /\ ApplicationModel.created_date app = Some (clk k)
    /\ ApplicationModel.modified_date app = Some (clk (S k))
    /\ ApplicationModel.forms app <> []
    /\ ApplicationModel.views app <> [].
Proof.
  intros Hdb. unfold NSFParser._build_application_model. rewrite Hdb.
  unfold bind, now, ret.
  match goal with
  | |- context [NSFParser.visit_notes ?n ?a clk ?j] =>
      pose proof (visit_notes_header n a clk j) as Hh;
      destruct (NSFParser.visit_notes n a clk j) as [app1 k1]
  end.
  cbv zeta in Hh. cbn [fst ApplicationModel.id ApplicationModel.name
    ApplicationModel.description ApplicationModel.created_date
    ApplicationModel.modified_date] in Hh.
  destruct Hh as (H1 & H2 & H3 & H4 & H5).
  do 2 eexists. split; [reflexivity|].
  assert (Hname : NSFParser.or_else (Some (NSFDatabaseHeader.title dbh)) filename
                  = match NSFDatabaseHeader.title dbh with
                    | [] => filename
                    | _ => NSFDatabaseHeader.title dbh
                    end).
  { unfold NSFParser.or_else. destruct (NSFDatabaseHeader.title dbh); reflexivity. }
  rewrite Hname in H2.
  destruct (ApplicationModel.forms app1) as [|f fs] eqn:Ef;
    destruct (ApplicationModel.views app1) as [|v vs] eqn:Ev;
    rewrite ?add_form_fields, ?add_view_fields;
    cbn [ApplicationModel.forms ApplicationModel.views ApplicationModel.id
         ApplicationModel.name ApplicationModel.description
         ApplicationModel.created_date ApplicationModel.modified_date];
    rewrite ?Ef, ?Ev; cbn [app];
    rewrite ?add_view_fields;
    cbn [ApplicationModel.forms ApplicationModel.views ApplicationModel.id
         ApplicationModel.name ApplicationModel.description
         ApplicationModel.created_date ApplicationModel.modified_date];
    rewrite ?Ef, ?Ev;
    repeat split; try assumption; try discriminate.
Qed.

(** Once the database header is set, building the model succeeds
    whatever notes the parser holds: the model carries the file name as
    its id, the title or else the file name as its name, the first two
    clock readings as its dates, and neither its forms nor its views are
    empty. *)
Theorem build_never_empty (self : NSFParser.t) (filename : str)
    (clk : clock) (k : nat) (dbh : NSFDatabaseHeader.t) :
  NSFParser.db_header self = Some dbh ->
  exists app k',
    NSFParser._build_application_model self filename clk k = (Ok app, k')
    /\ ApplicationModel.id app = filename
    /\ ApplicationModel.name app
       = match NSFDatabaseHeader.title dbh with
         | [] => filename
         | _ => NSFDatabaseHeader.title dbh
         end
    /\ ApplicationModel.description app = Some (lit "Converted from " ++ filename)
    /\ ApplicationModel.created_date app = Some (clk k)
    /\ ApplicationModel.modified_date app = Some (clk (S k))
    /\ ApplicationModel.forms app <> []
    /\ ApplicationModel.views app <> [].
Proof.
  apply build_succeeds.
Qed.

Lemma build_never_empty_witness :
  exists app k',
    NSFParser._build_application_model
      (NSFParser.Build None (Some (NSFDatabaseHeader.__init__ [])) [])
      (lit "a.nsf") (fun _ => 7) 0%nat = (Ok app, k')
    /\ ApplicationModel.forms app <> []
    /\ ApplicationModel.views app <> [].
Proof.
  destruct (build_never_empty
              (NSFParser.Build None (Some (NSFDatabaseHeader.__init__ [])) [])
              (lit "a.nsf") (fun _ => 7) 0%nat (NSFDatabaseHeader.__init__ [])
              eq_refl)
    as (app & k' & H & _ & _ & _ & _ & _ & Hf & Hv).
  exists app, k'. auto.
Defined.

Lemma has_role_cases (note : NSFNote.t) :
  (NSFParser._is_form_note note = true
   /\ has_role Form note = true /\ has_role View note = false
   /\ has_role Document note = false)
  \/ (NSFParser._is_form_note note = false /\ NSFParser._is_view_note note = true
      /\ has_role Form note = false /\ has_role View note = true
      /\ has_role Document note = false)
  \/ (NSFParser._is_form_note note = false /\ NSFParser._is_view_note note = false
      /\ NSFParser._is_document_note note = true
      /\ has_role Form note = false /\ has_role View note = false
      /\ has_role Document note = true)
  \/ (NSFParser._is_form_note note = false /\ NSFParser._is_view_note note = false
      /\ NSFParser._is_document_note note = false
      /\ has_role Form note = false /\ has_role View note = false
      /\ has_role Document note = false).
Proof.
  unfold has_role, classify.
  destruct (NSFParser._is_form_note note); [tauto|].
  destruct (NSFParser._is_view_note note); [tauto|].
  destruct (NSFParser._is_document_note note); tauto.
Qed.

Lemma extract_form_of_note (note : NSFNote.t) (clk : clock) (k : nat) :
  NSFNote.items note = NSFNote._parse_items (NSFNote.data note) ->
  exists f, NSFParser._extract_form note clk k = (Some f, S k)
            /\ form_without_dates f = form_of_note note.
Proof.
  intros Hitems. unfold NSFParser._extract_form, NSFNote.get_text_item.
  rewrite Hitems, parse_items_foreign_key by reflexivity.
  eexists. split; reflexivity.
Qed.

Lemma extract_view_of_note (note : NSFNote.t) (clk : clock) (k : nat) :
  NSFNote.items note = NSFNote._parse_items (NSFNote.data note) ->
  exists v, NSFParser._extract_view note clk k = (Some v, S k)
            /\ view_without_dates v = view_of_note note.
Proof.
  intros Hitems. unfold NSFParser._extract_view, NSFNote.get_text_item.
  rewrite Hitems, parse_items_foreign_key by reflexivity.
  eexists. split; reflexivity.
Qed.

Lemma extract_document_of_note (note : NSFNote.t) (clk : clock) (k : nat) :
  exists d, NSFParser._extract_document note clk k = (Some d, S (S k))
            /\ document_without_dates d = document_of_note note.
Proof.
  unfold NSFParser._extract_document. eexists. split; reflexivity.
Qed.

Lemma visit_notes_contents (notes : list NSFNote.t) :
  Forall scanned_note notes ->
  forall (app : ApplicationModel.t) (clk : clock) (k : nat),
  let app' := fst (NSFParser.visit_notes notes app clk k) in
  map form_without_dates (ApplicationModel.forms app')
  = map form_without_dates (ApplicationModel.forms app)
    ++ map form_of_note (filter (has_role Form) notes)
  /\ map view_without_dates (ApplicationModel.views app')
     = map view_without_dates (ApplicationModel.views app)
       ++ map view_of_note (filter (has_role View) notes)
  /\ map document_without_dates (ApplicationModel.documents app')
     = map document_without_dates (ApplicationModel.documents app)
       ++ map document_of_note (filter (has_role Document) notes).
Proof.
  induction 1 as [|note notes (_ & _ & Hitems) _ IH]; intros app clk k.
  - cbn. rewrite !app_nil_r. auto.
  - cbn [NSFParser.visit_notes filter]. unfold bind, NSFParser.visit_note.
    destruct (has_role_cases note)
      as [(F & R1 & R2 & R3)|[(F & V & R1 & R2 & R3)
          |[(F & V & D & R1 & R2 & R3)|(F & V & D & R1 & R2 & R3)]]];
      rewrite ?F, ?V, ?D, R1, R2, R3.
    + destruct (extract_form_of_note note clk k Hitems) as (f & E & Ef).
      unfold bind, ret. rewrite E.
      specialize (IH (NSFParser.add_form app f) clk (S k)). cbv zeta in IH |- *.
      assert (P : ApplicationModel.forms (NSFParser.add_form app f)
                  = ApplicationModel.forms app ++ [f]
                  /\ ApplicationModel.views (NSFParser.add_form app f)
                     = ApplicationModel.views app
                  /\ ApplicationModel.documents (NSFParser.add_form app f)
                     = ApplicationModel.documents app)
        by (rewrite add_form_fields; auto).
      destruct P as (P1 & P2 & P3). rewrite P1, P2, P3 in IH.
      rewrite map_app in IH. cbn [map] in IH |- *. rewrite Ef in IH.
      rewrite <- app_assoc in IH. exact IH.
    + destruct (extract_view_of_note note clk k Hitems) as (v & E & Ev).
      unfold bind, ret. rewrite E.
      specialize (IH (NSFParser.add_view app v) clk (S k)). cbv zeta in IH |- *.
      assert (P : ApplicationModel.forms (NSFParser.add_view app v)
                  = ApplicationModel.forms app
                  /\ ApplicationModel.views (NSFParser.add_view app v)
                     = ApplicationModel.views app ++ [v]
                  /\ ApplicationModel.documents (NSFParser.add_view app v)
                     = ApplicationModel.documents app)
        by (rewrite add_view_fields; auto).
      destruct P as (P1 & P2 & P3). rewrite P1, P2, P3 in IH.
      rewrite map_app in IH. cbn [map] in IH |- *. rewrite Ev in IH.
      rewrite <- app_assoc in IH. exact IH.
    + destruct (extract_document_of_note note clk k) as (d & E & Ed).
      unfold bind, ret. rewrite E.
      specialize (IH (NSFParser.add_document app d) clk (S (S k))).
      cbv zeta in IH |- *.
      assert (P : ApplicationModel.forms (NSFParser.add_document app d)
                  = ApplicationModel.forms app
                  /\ ApplicationModel.views (NSFParser.add_document app d)
                     = ApplicationModel.views app
                  /\ ApplicationModel.documents (NSFParser.add_document app d)
                     = ApplicationModel.documents app ++ [d])
        by (rewrite add_document_fields; auto).
      destruct P as (P1 & P2 & P3). rewrite P1, P2, P3 in IH.
      rewrite map_app in IH. cbn [map] in IH |- *. rewrite Ed in IH.
      rewrite <- app_assoc in IH. exact IH.
    + unfold ret. apply IH.
Qed.

Lemma build_contents (self : NSFParser.t) (filename : str) (clk : clock)
    (k k' : nat) (app : ApplicationModel.t) :
  Forall scanned_note (NSFParser.notes self) ->
  NSFParser._build_application_model self filename clk k = (Ok app, k') ->
  map form_without_dates (ApplicationModel.forms app)
  = or_default (map form_of_note (filter (has_role Form) (NSFParser.notes self)))
               NSFParser._create_default_form
  /\ map view_without_dates (ApplicationModel.views app)
     = or_default (map view_of_note (filter (has_role View) (NSFParser.notes self)))
                  NSFParser._create_default_view
  /\ map document_without_dates (ApplicationModel.documents app)
     = map document_of_note (filter (has_role Document) (NSFParser.notes self)).
Proof.
  intros Hnotes. unfold NSFParser._build_application_model.
  destruct (NSFParser.db_header self) as [dbh|]; [|discriminate].
  unfold bind, now, ret.
  match goal with
  | |- context [NSFParser.visit_notes ?n ?a clk ?j] =>
      pose proof (visit_notes_contents n Hnotes a clk j) as Hc;
      destruct (NSFParser.visit_notes n a clk j) as [app1 k1]
  end.
  cbv zeta in Hc. cbn [fst ApplicationModel.forms ApplicationModel.views
    ApplicationModel.documents map List.app] in Hc.
  destruct Hc as (Hf & Hv & Hd).
  intros H. injection H as <- _.
  destruct (ApplicationModel.forms app1) as [|f fs] eqn:Ef;
    destruct (ApplicationModel.views app1) as [|v vs] eqn:Ev;
    rewrite ?add_form_fields, ?add_view_fields;
    cbn [ApplicationModel.forms ApplicationModel.views ApplicationModel.documents];
    rewrite ?Ef, ?Ev; cbn [List.app];
    rewrite ?add_view_fields;
    cbn [ApplicationModel.forms ApplicationModel.views ApplicationModel.documents];
    rewrite ?Ef, ?Ev; cbn [map] in Hf, Hv |- *;
    rewrite <- Hf, <- Hv, Hd; repeat split.
Qed.

Lemma parse_file_contents (content : bytes) (filename : str)
    (clk : clock) (k k' : nat) (self : NSFParser.t) (app : ApplicationModel.t) :
  NSFParser.parse_file NSFParser.__init__ content filename clk k
  = (self, Ok app, k') ->
  Forall scanned_note (NSFParser.notes self)
  /\ map NSFNote.note_id (NSFParser.notes self)
     = ids_from 1 (length (NSFParser.notes self))
  /\ map form_without_dates (ApplicationModel.forms app)
     = or_default (map form_of_note (filter (has_role Form) (NSFParser.notes self)))
                  NSFParser._create_default_form
  /\ map view_without_dates (ApplicationModel.views app)
     = or_default (map view_of_note (filter (has_role View) (NSFParser.notes self)))
                  NSFParser._create_default_view
  /\ map document_without_dates (ApplicationModel.documents app)
     = map document_of_note (filter (has_role Document) (NSFParser.notes self)).
Proof.
  unfold NSFParser.parse_file, NSFParser._parse_nsf_stream, bind, ret.
  destruct (read content 22) as [header_data stream].
  destruct (NSFFileHeader.__init__ header_data) as [fh|e]; [|discriminate].
  destruct (read stream (NSFFileHeader.info_buffer_size fh)) as [dbd stream'].
  cbn [NSFParser.file_header NSFParser.db_header NSFParser.notes].
  destruct (parse_notes_loop_appends (S (length stream')) stream' [] 1)
    as (new & E & Hids & Hall & _).
  cbn [List.app] in E.
  unfold NSFParser._parse_notes. cbn [NSFParser.notes].
  change (NSFParser.notes NSFParser.__init__) with (@nil NSFNote.t).
  rewrite E.
  match goal with
  | |- context [NSFParser._build_application_model ?s filename clk k] =>
      destruct (NSFParser._build_application_model s filename clk k)
        as [r k1] eqn:B
  end.
  destruct r as [app1|e]; [|discriminate].
  intros H. injection H as <- <- _.
  cbn [NSFParser.notes]. split; [exact Hall|]. split; [exact Hids|].
  apply (build_contents
           (NSFParser.Build (Some fh) (Some (NSFDatabaseHeader.__init__ dbd)) new)
           filename clk k k1 app1 Hall B).
Qed.

(** What a successful parse of a fresh parser returns, dates apart: the
    notes kept are numbered from 1 in order; the forms are one per note
    of role Form, in order, each named "Form_" and the note's number
    with the three canonical fields, or the default form alone when no
    note has that role; the views are one per note of role View, each
    named "View_" and the number and not marked default, or the default
    view alone; the documents are one per note of role Document, in
    order, each pointing to the form name "DefaultForm".  Notes without
    a role leave nothing in the model. *)
Theorem parsed_model_contents (content : bytes) (filename : str)
    (clk : clock) (k k' : nat) (self : NSFParser.t) (app : ApplicationModel.t) :
  NSFParser.parse_file NSFParser.__init__ content filename clk k
  = (self, Ok app, k') ->
  Forall scanned_note (NSFParser.notes self)
  /\ map NSFNote.note_id (NSFParser.notes self)
     = ids_from 1 (length (NSFParser.notes self))
  /\ map form_without_dates (ApplicationModel.forms app)
     = or_default (map form_of_note (filter (has_role Form) (NSFParser.notes self)))
                  NSFParser._create_default_form
  /\ map view_without_dates (ApplicationModel.views app)
     = or_default (map view_of_note (filter (has_role View) (NSFParser.notes self)))
                  NSFParser._create_default_view
  /\ map document_without_dates (ApplicationModel.documents app)
     = map document_of_note (filter (has_role Document) (NSFParser.notes self)).
Proof.
  apply parse_file_contents.
Qed.

Lemma parsed_model_contents_witness :
  match NSFParser.parse_file NSFParser.__init__
          (file_header_bytes 43 0 1 (repeat x00 14) ++ encode_frames [(512, [x41])])
          (lit "a.nsf") (fun _ => 7) 0%nat with
  | (self, Ok app, _) =>
      map document_without_dates (ApplicationModel.documents app)
      = map document_of_note (filter (has_role Document) (NSFParser.notes self))
  | _ => False
  end.
Proof.
  destruct (NSFParser.parse_file NSFParser.__init__
              (file_header_bytes 43 0 1 (repeat x00 14)
               ++ encode_frames [(512, [x41])])
              (lit "a.nsf") (fun _ => 7) 0%nat) as [[self r] k'] eqn:E.
  destruct r as [app|e].
  - apply (parsed_model_contents _ _ _ _ _ _ _ E).
  - vm_compute in E. discriminate E.
Defined.

(** ** parse_file: what can fail *)

Lemma u16_at_firstn (data : bytes) (n : nat) (offset : Z) :
  0 <= offset -> offset + 2 <= Z.of_nat n ->
  u16_at (firstn n data) offset = u16_at data offset.
Proof.
  intros H0 H1. unfold u16_at. rewrite !nth_firstn.
  destruct (Nat.ltb_spec (Z.to_nat offset) n); [|lia].
  destruct (Nat.ltb_spec (S (Z.to_nat offset)) n); [|lia]. reflexivity.
Qed.

(** [parse_file] fails exactly on the header, with one wrapped error,
    leaving the parser as it was and the clock unread; with 22 bytes and
    the signature it succeeds whatever follows (a short info buffer,
    damaged or missing notes), and the parser then holds the header
    fields read at offsets 2, 4, 6, the info buffer clipped to the file,
    and the notes scanned after it. *)
Theorem parse_file_fails_only_on_header (self : NSFParser.t) (content : bytes)
    (filename : str) (clk : clock) (k : nat) :
  (len content < 22 ->
   NSFParser.parse_file self content filename clk k
   = (self,
      Raise (NSFParseError "Failed to parse NSF file: Invalid NSF header size"),
      k))
  /\ (22 <= len content -> firstn 2 content <> [x1a; x00] ->
      NSFParser.parse_file self content filename clk k
      = (self,
         Raise (NSFParseError "Failed to parse NSF file: Invalid NSF signature"),
         k))
  /\ (22 <= len content -> firstn 2 content = [x1a; x00] ->
      exists app k',
        NSFParser.parse_file self content filename clk k
        = (NSFParser.Build
             (Some (NSFFileHeader.Build [x1a; x00] (u16_at content 2)
                      (u16_at content 4) (u16_at content 6)))
             (Some (NSFDatabaseHeader.__init__
                      (slice content 22 (22 + u16_at content 4))))
             (NSFParser._parse_notes self
                (skipn (Z.to_nat (22 + u16_at content 4)) content)),
           Ok app, k')).
Proof.
  unfold NSFParser.parse_file, NSFParser._parse_nsf_stream, bind, ret, read.
  change (Z.to_nat 22) with 22%nat.
  assert (L22 : len (firstn 22 content) = Z.min 22 (len content)).
  { unfold len. rewrite length_firstn. lia. }
  split; [|split].
  - intros Hshort. unfold NSFFileHeader.__init__. rewrite L22.
    destruct (Z.ltb_spec (Z.min 22 (len content)) 22); [reflexivity|lia].
  - intros Hlen Hsig. unfold NSFFileHeader.__init__. rewrite L22.
    destruct (Z.ltb_spec (Z.min 22 (len content)) 22); [lia|].
    rewrite slice_from_0. change (Z.to_nat 2) with 2%nat.
    rewrite firstn_firstn. change (Nat.min 2 22) with 2%nat.
    destruct (bytes_eqb (firstn 2 content) [x1a; x00]) eqn:E.
    + apply bytes_eqb_eq in E. contradiction.
    + reflexivity.
  - intros Hlen Hsig.
    rewrite (file_header_accepts (firstn 22 content)).
    + rewrite !u16_at_firstn by lia.
      cbn [NSFFileHeader.info_buffer_size NSFParser.file_header
           NSFParser.db_header NSFParser.notes].
      pose proof (u16_at_range content 4) as Hr.
      replace (firstn (Z.to_nat (u16_at content 4)) (skipn 22 content))
        with (slice content 22 (22 + u16_at content 4))
        by (unfold slice; f_equal; lia).
      rewrite skipn_skipn.
      replace (Z.to_nat (u16_at content 4) + 22)%nat
        with (Z.to_nat (22 + u16_at content 4)) by lia.
      destruct (build_succeeds
                  (NSFParser.Build
                     (Some (NSFFileHeader.Build [x1a; x00] (u16_at content 2)
                              (u16_at content 4) (u16_at content 6)))
                     (Some (NSFDatabaseHeader.__init__
                              (slice content 22 (22 + u16_at content 4))))
                     (NSFParser._parse_notes
                        (NSFParser.Build
                           (Some (NSFFileHeader.Build [x1a; x00] (u16_at content 2)
                                    (u16_at content 4) (u16_at content 6)))
                           (Some (NSFDatabaseHeader.__init__
                                    (slice content 22 (22 + u16_at content 4))))
                           (NSFParser.notes self))
                        (skipn (Z.to_nat (22 + u16_at content 4)) content)))
                  filename clk k _ eq_refl) as (app & k' & B & _).
      exists app, k'. rewrite B. reflexivity.
    + rewrite L22. lia.
    + rewrite firstn_firstn. exact Hsig.
Qed.

Lemma parse_file_fails_only_on_header_witness :
  NSFParser.parse_file NSFParser.__init__ [x1a; x00; x2b] (lit "a.nsf")
    (fun _ => 7) 0%nat
  = (NSFParser.__init__,
     Raise (NSFParseError "Failed to parse NSF file: Invalid NSF header size"),
     0%nat).
Proof.
  apply (proj1 (parse_file_fails_only_on_header NSFParser.__init__
                  [x1a; x00; x2b] (lit "a.nsf") (fun _ => 7) 0%nat)).
  vm_compute. reflexivity.
Defined.

(** ** Lookups in the parsed model *)

Lemma find_all_false {A} (p : A -> bool) (l : list A) :
  (forall x, In x l -> p x = false) -> find p l = None.
Proof.
  induction l as [|a l IH]; intros H; [reflexivity|].
  cbn [find]. rewrite (H a) by (left; reflexivity).
  apply IH. intros x Hx. apply H. right. exact Hx.
Qed.

Lemma filter_all_true {A} (p : A -> bool) (l : list A) :
  (forall x, In x l -> p x = true) -> filter p l = l.
Proof.
  induction l as [|a l IH]; intros H; [reflexivity|].
  cbn [filter]. rewrite (H a) by (left; reflexivity).
  f_equal. apply IH. intros x Hx. apply H. right. exact Hx.
Qed.

Lemma filter_all_false {A} (p : A -> bool) (l : list A) :
  (forall x, In x l -> p x = false) -> filter p l = [].
Proof.
  induction l as [|a l IH]; intros H; [reflexivity|].
  cbn [filter]. rewrite (H a) by (left; reflexivity).
  apply IH. intros x Hx. apply H. right. exact Hx.
Qed.

Lemma in_map_eq {A B C} (f : A -> C) (g : B -> C) (l : list A) (l' : list B)
    (x : A) :
  map f l = map g l' -> In x l -> exists y, In y l' /\ f x = g y.
Proof.
  intros E Hx. apply (in_map f) in Hx. rewrite E in Hx.
  apply in_map_iff in Hx. destruct Hx as (y & Hy & Hin). eauto.
Qed.

(** In the model of a successful parse every document names the form
    "DefaultForm", so the lookup of the documents of that form returns
    them all and the lookup for any other form name returns none; the
    form "DefaultForm" itself is in the model when no note has role
    Form, and is not in the model as soon as one has. *)
Theorem documents_name_the_default_form (content : bytes) (filename : str)
    (clk : clock) (k k' : nat) (self : NSFParser.t) (app : ApplicationModel.t) :
  NSFParser.parse_file NSFParser.__init__ content filename clk k
  = (self, Ok app, k') ->
  get_documents_by_form app (lit "DefaultForm") = ApplicationModel.documents app
  /\ (forall name, name <> lit "DefaultForm" ->
        get_documents_by_form app name = [])
  /\ (filter (has_role Form) (NSFParser.notes self) = [] ->
      exists f, get_form_by_name app (lit "DefaultForm") = Some f
                /\ form_without_dates f = NSFParser._create_default_form)
  /\ (filter (has_role Form) (NSFParser.notes self) <> [] ->
      get_form_by_name app (lit "DefaultForm") = None).
Proof.
  intros H.
  destruct (parse_file_contents _ _ _ _ _ _ _ H) as (_ & _ & Hf & _ & Hd).
  assert (Hdocs : forall d, In d (ApplicationModel.documents app) ->
                    DocumentModel.form_name d = lit "DefaultForm").
  { intros d Hin.
    destruct (in_map_eq _ _ _ _ d Hd Hin) as (n & _ & E).
    change (DocumentModel.form_name d)
      with (DocumentModel.form_name (document_without_dates d)).
    now rewrite E. }
  split; [|split; [|split]].
  - unfold get_documents_by_form. apply filter_all_true.
    intros d Hin. rewrite (Hdocs d Hin). apply str_eqb_refl.
  - intros name Hname. unfold get_documents_by_form. apply filter_all_false.
    intros d Hin. rewrite (Hdocs d Hin). apply str_eqb_neq. congruence.
  - intros Hnone. rewrite Hnone in Hf. cbn [map or_default] in Hf.
    unfold get_form_by_name.
    destruct (ApplicationModel.forms app) as [|f [|g fs]]; try discriminate Hf.
    cbn [map] in Hf.
    apply (f_equal (hd NSFParser._create_default_form)) in Hf. cbn [hd] in Hf.
    exists f. split; [|exact Hf].
    cbn [find alias_is]. rewrite orb_false_r.
    change (FormModel.name f) with (FormModel.name (form_without_dates f)).
    rewrite Hf. reflexivity.
  - intros Hsome. unfold get_form_by_name. apply find_all_false.
    intros f Hin. cbn [alias_is]. rewrite orb_false_r.
    destruct (filter (has_role Form) (NSFParser.notes self)) as [|n l] eqn:El;
      [contradiction|].
    cbn [map or_default] in Hf. rewrite <- map_cons in Hf.
    destruct (in_map_eq _ _ _ _ f Hf Hin) as (n' & _ & E).
    change (FormModel.name f) with (FormModel.name (form_without_dates f)).
    rewrite E. reflexivity.
Qed.

Lemma documents_name_the_default_form_witness :
  match NSFParser.parse_file NSFParser.__init__
          (file_header_bytes 43 0 1 (repeat x00 14) ++ encode_frames [(512, [x41])])
          (lit "a.nsf") (fun _ => 7) 0%nat with
  | (self, Ok app, _) =>
      get_documents_by_form app (lit "DefaultForm") = ApplicationModel.documents app
  | _ => False
  end.
Proof.
  destruct (NSFParser.parse_file NSFParser.__init__
              (file_header_bytes 43 0 1 (repeat x00 14)
               ++ encode_frames [(512, [x41])])
              (lit "a.nsf") (fun _ => 7) 0%nat) as [[self r] k'] eqn:E.
  destruct r as [app|e].
  - apply (documents_name_the_default_form _ _ _ _ _ _ _ E).
  - vm_compute in E. discriminate E.
Defined.

(** ** The name helpers of the generator *)

Lemma lower_char_spec (x : Z) :
  (65 <= x <= 90 /\ lower_char x = x + 32)
  \/ (~ (65 <= x <= 90) /\ lower_char x = x).
Proof.
  unfold lower_char.
  destruct (Z.leb_spec 65 x), (Z.leb_spec x 90); cbn [andb]; lia.
Qed.

Lemma kebab_char (c : Z) :
  let g := fun c => (fun c => if c =? 32 then 45 else c)
                      ((fun c => if c =? 95 then 45 else c) (lower_char c)) in
  g c <> 95 /\ g c <> 32 /\ ~ (65 <= g c <= 90) /\ g (g c) = g c.
Proof.
  cbv zeta beta.
  assert (Hg : forall x, ~ (65 <= x <= 90) -> x <> 95 -> x <> 32 ->
            (if (if lower_char x =? 95 then 45 else lower_char x) =? 32
             then 45 else if lower_char x =? 95 then 45 else lower_char x) = x).
  { intros x H1 H2 H3. destruct (lower_char_spec x) as [[? ?]|[_ ->]]; [lia|].
    destruct (Z.eqb_spec x 95); [lia|]. destruct (Z.eqb_spec x 32); [lia|].
    reflexivity. }
  set (y := if (if lower_char c =? 95 then 45 else lower_char c) =? 32
            then 45 else if lower_char c =? 95 then 45 else lower_char c).
  assert (Hy : y <> 95 /\ y <> 32 /\ ~ (65 <= y <= 90)).
  { unfold y. generalize (lower_char_spec c). generalize (lower_char c).
    intros l Hl. destruct (Z.eqb_spec l 95).
    - change (45 =? 32) with false. cbv iota. lia.
    - destruct (Z.eqb_spec l 32); lia. }
  destruct Hy as (Y1 & Y2 & Y3). repeat split; try assumption.
  apply Hg; assumption.
Qed.

Lemma kebab_case_map (text : str) :
  _kebab_case text
  = map (fun c => (fun c => if c =? 32 then 45 else c)
                    ((fun c => if c =? 95 then 45 else c) (lower_char c))) text.
Proof.
  unfold _kebab_case, replace_char, lower. rewrite !map_map. reflexivity.
Qed.

(** On ASCII text [_kebab_case] keeps the length, leaves no upper-case
    letter, underscore or space, and changes nothing when applied a
    second time. *)
Theorem kebab_case_normalises (text : str) :
  is_ascii text ->
  length (_kebab_case text) = length text
  /\ Forall (fun c => c <> 95 /\ c <> 32 /\ ~ (65 <= c <= 90)) (_kebab_case text)
  /\ _kebab_case (_kebab_case text) = _kebab_case text.
Proof.
  intros _. rewrite !kebab_case_map. split; [apply length_map|]. split.
  - apply Forall_forall. intros c Hc. apply in_map_iff in Hc.
    destruct Hc as (x & <- & _). pose proof (kebab_char x) as H. cbv zeta in H.
    tauto.
  - rewrite map_map. apply map_ext. intros c.
    pose proof (kebab_char c) as H. cbv zeta in H. tauto.
Qed.

Lemma kebab_case_normalises_witness :
  _kebab_case (_kebab_case (lit "All Documents_2"))
  = _kebab_case (lit "All Documents_2").
Proof.
  apply (kebab_case_normalises (lit "All Documents_2")).
  repeat constructor; vm_compute; congruence.
Defined.
















(** ** What the text decoder can return *)

Lemma is_continuation_true (c : Z) :
  is_continuation c = true -> 0x80 <= c < 0xC0.
Proof.
  unfold is_continuation. intros H. apply andb_true_iff in H.
  destruct H as [H1 H2]. apply Z.leb_le in H1. apply Z.ltb_lt in H2. lia.
Qed.

Ltac utf8_rest IH s :=
  let Hl := fresh "Hl" in
  let Hc := fresh "Hc" in
  destruct (IH s ltac:(cbn [length] in *; lia)) as [Hl Hc].

Ltac utf8_old c Hc Hin :=
  let A := fresh in
  let C := fresh in
  let b := fresh "b" in
  let Hb := fresh in
  let Hz := fresh in
  let Z0 := fresh in
  destruct (Hc c Hin) as [A C];
  split; [exact A|]; intros Z0; destruct (C Z0) as (b & Hb & Hz);
  exists b; split; [cbn [In]; tauto|exact Hz].

Lemma decode_utf8_ignore_bounds (n : nat) :
  forall s : bytes, (length s <= n)%nat ->
  (length (decode_utf8 ignore s) <= length s)%nat
  /\ forall c, In c (decode_utf8 ignore s) ->
       scalar_value c /\ (c = 0 -> exists b, In b s /\ ord b = 0).
Proof.
  induction n as [|n IH]; intros s Hlen.
  { destruct s; [|cbn in Hlen; lia]. split; [cbn; lia|intros c []]. }
  destruct s as [|b0 s1]; [split; [cbn; lia|intros c []]|].
  pose proof (ord_range b0) as R0.
  cbn [decode_utf8]. cbv zeta.
  destruct (Z.ltb_spec (ord b0) 0x80).
  { utf8_rest IH s1. split; [cbn [length]; lia|].
    intros c [E|Hin]; [|utf8_old c Hc Hin].
    subst c. split; [unfold scalar_value; lia|].
    intros Z0. exists b0. split; [left; reflexivity|exact Z0]. }
  destruct (Z.ltb_spec (ord b0) 0xC2).
  { utf8_rest IH s1. cbn [on_error app]. split; [cbn [length]; lia|].
    intros c Hin. utf8_old c Hc Hin. }
  destruct (Z.ltb_spec (ord b0) 0xE0).
  { destruct s1 as [|b1 s2]; [split; [cbn; lia|intros c []]|].
    pose proof (ord_range b1) as R1.
    destruct (is_continuation (ord b1)) eqn:C1.
    - apply is_continuation_true in C1. utf8_rest IH s2.
      split; [cbn [length] in *; lia|].
      intros c [E|Hin]; [|utf8_old c Hc Hin].
      subst c. split; [unfold scalar_value; lia|]. intros Z0. exfalso. lia.
    - utf8_rest IH (b1 :: s2). cbn [on_error app].
      split; [cbn [length] in *; lia|].
      intros c Hin. utf8_old c Hc Hin. }
  destruct (Z.ltb_spec (ord b0) 0xF0).
  { destruct s1 as [|b1 s2]; [split; [cbn; lia|intros c []]|].
    pose proof (ord_range b1) as R1.
    destruct (negb (is_continuation (ord b1))
              || (if ord b1 <? 0xA0 then ord b0 =? 0xE0 else ord b0 =? 0xED)) eqn:G.
    - utf8_rest IH (b1 :: s2). cbn [on_error app].
      split; [cbn [length] in *; lia|].
      intros c Hin. utf8_old c Hc Hin.
    - apply orb_false_iff in G. destruct G as [C1 G].
      apply negb_false_iff, is_continuation_true in C1.
      destruct s2 as [|b2 s3]; [split; [cbn; lia|intros c []]|].
      pose proof (ord_range b2) as R2.
      destruct (is_continuation (ord b2)) eqn:C2.
      + apply is_continuation_true in C2. utf8_rest IH s3.
        split; [cbn [length] in *; lia|].
        intros c [E|Hin]; [|utf8_old c Hc Hin].
        subst c.
        assert (Hcp : 0x800 <= ord b0 * 4096 + ord b1 * 64 + ord b2
                               - (0xE0 * 4096 + 0x80 * 64 + 0x80) <= 0xFFFF
                      /\ ~ (0xD800 <= ord b0 * 4096 + ord b1 * 64 + ord b2
                               - (0xE0 * 4096 + 0x80 * 64 + 0x80) <= 0xDFFF)).
        { destruct (Z.ltb_spec (ord b1) 0xA0);
            [apply Z.eqb_neq in G|apply Z.eqb_neq in G]; lia. }
        split; [unfold scalar_value; lia|]. intros Z0. exfalso. lia.
      + utf8_rest IH (b2 :: s3). cbn [on_error app].
        split; [cbn [length] in *; lia|].
        intros c Hin. utf8_old c Hc Hin. }
  destruct (Z.ltb_spec (ord b0) 0xF5).
  { destruct s1 as [|b1 s2]; [split; [cbn; lia|intros c []]|].
    pose proof (ord_range b1) as R1.
    destruct (negb (is_continuation (ord b1))
              || (if ord b1 <? 0x90 then ord b0 =? 0xF0 else ord b0 =? 0xF4)) eqn:G.
    - utf8_rest IH (b1 :: s2). cbn [on_error app].
      split; [cbn [length] in *; lia|].
      intros c Hin. utf8_old c Hc Hin.
    - apply orb_false_iff in G. destruct G as [C1 G].
      apply negb_false_iff, is_continuation_true in C1.
      destruct s2 as [|b2 s3]; [split; [cbn; lia|intros c []]|].
      pose proof (ord_range b2) as R2.
      destruct (is_continuation (ord b2)) eqn:C2; cbn [negb].
      + apply is_continuation_true in C2.
        destruct s3 as [|b3 s4]; [split; [cbn; lia|intros c []]|].
        pose proof (ord_range b3) as R3.
        destruct (is_continuation (ord b3)) eqn:C3.
        * apply is_continuation_true in C3. utf8_rest IH s4.
          split; [cbn [length] in *; lia|].
          intros c [E|Hin]; [|utf8_old c Hc Hin].
          subst c.
          assert (Hcp : 0x10000 <= ord b0 * 262144 + ord b1 * 4096 + ord b2 * 64
                                   + ord b3
                                   - (0xF0 * 262144 + 0x80 * 4096 + 0x80 * 64 + 0x80)
                        <= 0x10FFFF).
          { destruct (Z.ltb_spec (ord b1) 0x90);
              [apply Z.eqb_neq in G|apply Z.eqb_neq in G]; lia. }
          split; [unfold scalar_value; lia|]. intros Z0. exfalso. lia.
        * utf8_rest IH (b3 :: s4). cbn [on_error app].
          split; [cbn [length] in *; lia|].
          intros c Hin. utf8_old c Hc Hin.
      + utf8_rest IH (b2 :: s3). cbn [on_error app].
        split; [cbn [length] in *; lia|].
        intros c Hin. utf8_old c Hc Hin. }
  utf8_rest IH s1. cbn [on_error app]. split; [cbn [length]; lia|].
  intros c Hin. utf8_old c Hc Hin.
Qed.


Lemma split_nul_head_bounds (w : bytes) :
  (length (split_nul_head w) <= length w)%nat
  /\ forall b, In b (split_nul_head w) -> ord b <> 0.
Proof.
  induction w as [|c w [IHl IHn]]; [split; [cbn; lia|intros b []]|].
  cbn [split_nul_head]. destruct (Z.eqb_spec (ord c) 0).
  - split; [cbn; lia|intros b []].
  - split; [cbn [length]; lia|]. intros b [<-|Hb]; auto.
Qed.

(** The title read from any info buffer has at most 64 characters, all
    of them Unicode scalar values other than NUL. *)
Theorem database_title_bounds (info_buffer : bytes) :
  (length (NSFDatabaseHeader.title (NSFDatabaseHeader.__init__ info_buffer)) <= 64)%nat
  /\ Forall (fun c => scalar_value c /\ c <> 0)
            (NSFDatabaseHeader.title (NSFDatabaseHeader.__init__ info_buffer)).
Proof.
  cbn [NSFDatabaseHeader.title NSFDatabaseHeader.__init__].
  unfold NSFDatabaseHeader._parse_info_buffer.
  destruct (128 <? len info_buffer); [|split; [cbn; lia|constructor]].
  cbv zeta.
  set (w := slice info_buffer 64 (64 + 64)).
  assert (Hw : (length w <= 64)%nat).
  { unfold w, slice. rewrite length_firstn. lia. }
  destruct (split_nul_head_bounds w) as [Hl Hn].
  destruct (decode_utf8_ignore_bounds (length (split_nul_head w))
              (split_nul_head w) ltac:(lia)) as [Dl Dc].
  split; [lia|].
  apply Forall_forall. intros c Hin. destruct (Dc c Hin) as [Hs Hz].
  split; [exact Hs|]. intros Z0. destruct (Hz Z0) as (b & Hb & Hb0).
  apply (Hn b Hb Hb0).
Qed.

Lemma split_char_words (sep : Z) (s : str) :
  forall w, In w (split_char sep s) ->
  forall c, In c w -> c <> sep /\ In c s.
Proof.
  induction s as [|x s IH]; intros w Hw c Hc.
  - cbn in Hw. destruct Hw as [<-|[]]. destruct Hc.
  - cbn [split_char] in Hw. destruct (Z.eqb_spec x sep) as [E|E].
    + destruct Hw as [<-|Hw]; [destruct Hc|].
      destruct (IH w Hw c Hc). split; [assumption|right; assumption].
    + destruct (split_char sep s) as [|w0 ws] eqn:Es.
      * destruct Hw as [<-|[]]. destruct Hc as [<-|[]].
        split; [exact E|left; reflexivity].
      * destruct Hw as [<-|Hw].
        -- destruct Hc as [<-|Hc]; [split; [exact E|left; reflexivity]|].
           destruct (IH w0 (or_introl eq_refl) c Hc).
           split; [assumption|right; assumption].
        -- destruct (IH w (or_intror Hw) c Hc).
           split; [assumption|right; assumption].
Qed.

Lemma capitalize_chars (w : str) (c : Z) :
  In c (capitalize w) -> exists x, In x w /\ (c = upper_char x \/ c = lower_char x).
Proof.
  destruct w as [|y w]; [intros []|]. cbn [capitalize].
  intros [<-|Hc].
  - exists y. split; [left; reflexivity|left; reflexivity].
  - unfold lower in Hc. apply in_map_iff in Hc. destruct Hc as (x & <- & Hx).
    exists x. split; [right; exact Hx|right; reflexivity].
Qed.

Lemma case_keeps_separators_out (x : Z) :
  x <> 95 -> x <> 45 ->
  upper_char x <> 95 /\ upper_char x <> 45
  /\ lower_char x <> 95 /\ lower_char x <> 45.
Proof.
  intros H1 H2. unfold upper_char, lower_char.
  destruct (Z.leb_spec 97 x), (Z.leb_spec x 122), (Z.leb_spec 65 x),
    (Z.leb_spec x 90); cbn [andb]; lia.
Qed.

Lemma words_without_separators (text : str) :
  forall w, In w (split_char 95 (replace_char 45 95 text)) ->
  forall x, In x w -> x <> 95 /\ x <> 45.
Proof.
  intros w Hw x Hx. destruct (split_char_words _ _ w Hw x Hx) as [H95 Hin].
  split; [exact H95|]. unfold replace_char in Hin. apply in_map_iff in Hin.
  destruct Hin as (y & <- & _). destruct (Z.eqb_spec y 45); lia.
Qed.

(** On ASCII text the names [_pascal_case] and [_camel_case] make hold
    neither an underscore nor a hyphen. *)
Theorem case_helpers_drop_separators (text : str) :
  is_ascii text ->
  Forall (fun c => c <> 95 /\ c <> 45) (_pascal_case text)
  /\ Forall (fun c => c <> 95 /\ c <> 45) (_camel_case text).
Proof.
  intros _.
  assert (Hcap : forall ws,
            (forall w, In w ws -> forall x, In x w -> x <> 95 /\ x <> 45) ->
            Forall (fun c => c <> 95 /\ c <> 45) (concat (map capitalize ws))).
  { intros ws Hws. apply Forall_forall. intros c Hc.
    apply in_concat in Hc. destruct Hc as (cw & Hcw & Hc).
    apply in_map_iff in Hcw. destruct Hcw as (w & <- & Hw).
    apply capitalize_chars in Hc. destruct Hc as (x & Hx & E).
    destruct (Hws w Hw x Hx) as [A B].
    pose proof (case_keeps_separators_out x A B). destruct E; subst c; tauto. }
  pose proof (words_without_separators text) as Hws.
  split.
  - unfold _pascal_case. cbv zeta. apply Hcap, Hws.
  - unfold _camel_case. cbv zeta.
    destruct (split_char 95 (replace_char 45 95 text)) as [|w ws];
      cbn [hd tl]; apply Forall_app; split.
    + constructor.
    + apply Hcap. intros w [].
    + apply Forall_forall. intros c Hc. unfold lower in Hc.
      apply in_map_iff in Hc. destruct Hc as (x & <- & Hx).
      destruct (Hws w (or_introl eq_refl) x Hx) as [A B].
      pose proof (case_keeps_separators_out x A B). tauto.
    + apply Hcap. intros w' Hw'. apply Hws. right. exact Hw'.
Qed.

Lemma case_helpers_drop_separators_witness :
  Forall (fun c => c <> 95 /\ c <> 45) (_pascal_case (lit "created_date-x")).
Proof.
  apply (case_helpers_drop_separators (lit "created_date-x")).
  repeat constructor; vm_compute; congruence.
Defined.
